(** * Chat orchestration and LLM invocation pipeline

    A shallow embedding of the backend's chat service
    ([services/chat/chatService.ts]), the reply generator
    ([services/llm/generateReply.ts]), the provider client configuration
    ([services/llm/openaiClient.ts]), the message and conversation
    repositories and the chat route handlers, together with the parts of
    the JavaScript runtime these files rely on. *)

From Stdlib Require Import ZArith NArith Lia String Ascii List.
From stdpp Require Import gmap strings list sorting.

Local Open Scope Z_scope.

(** ** The JavaScript runtime *)

Module JS.

(** A JavaScript string is a sequence of UTF-16 code units. *)
Abbreviation jsstring := (list N).

(** String literals of the sources are written in UTF-8; [js] turns such
    a literal into its code units. *)
Fixpoint utf16_of_utf8 (bs : list N) : jsstring :=
  match bs with
  | [] => []
  | b :: rest =>
    if (b <? 0x80)%N then b :: utf16_of_utf8 rest
    else if (b <? 0xE0)%N then
      match rest with
      | c :: rest' =>
        N.lor (N.shiftl (N.land b 0x1F) 6) (N.land c 0x3F) :: utf16_of_utf8 rest'
      | _ => []
      end
    else if (b <? 0xF0)%N then
      match rest with
      | c :: d :: rest' =>
        N.lor (N.shiftl (N.land b 0x0F) 12)
              (N.lor (N.shiftl (N.land c 0x3F) 6) (N.land d 0x3F))
          :: utf16_of_utf8 rest'
      | _ => []
      end
    else
      match rest with
      | c :: d :: e :: rest' =>
        let cp := N.lor (N.shiftl (N.land b 0x07) 18)
                    (N.lor (N.shiftl (N.land c 0x3F) 12)
                       (N.lor (N.shiftl (N.land d 0x3F) 6) (N.land e 0x3F))) in
        let v := (cp - 0x10000)%N in
        (0xD800 + N.shiftr v 10)%N :: (0xDC00 + N.land v 0x3FF)%N
          :: utf16_of_utf8 rest'
      | _ => []
      end
  end.

Definition js (s : string) : jsstring :=
  utf16_of_utf8 (map N_of_ascii (list_ascii_of_string s)).

(** WhiteSpace and LineTerminator code units, the ones [trim] strips. *)
Definition isWhiteSpace (c : N) : bool :=
  ((c =? 0x09) || (c =? 0x0A) || (c =? 0x0B) || (c =? 0x0C) || (c =? 0x0D)
   || (c =? 0x20) || (c =? 0xA0) || (c =? 0x1680)
   || ((0x2000 <=? c) && (c <=? 0x200A))
   || (c =? 0x2028) || (c =? 0x2029) || (c =? 0x202F) || (c =? 0x205F)
   || (c =? 0x3000) || (c =? 0xFEFF))%N.

Fixpoint trimStart (s : jsstring) : jsstring :=
  match s with
  | [] => []
  | c :: r => if isWhiteSpace c then trimStart r else s
  end.

Definition trimEnd (s : jsstring) : jsstring := rev (trimStart (rev s)).

(** [String.prototype.trim] *)
Definition trim (s : jsstring) : jsstring := trimEnd (trimStart s).

Fixpoint startsWith (p s : jsstring) : bool :=
  match p, s with
  | [], _ => true
  | _ :: _, [] => false
  | a :: p', b :: s' => (a =? b)%N && startsWith p' s'
  end.

(** [s.includes(p)] *)
Fixpoint includes (s p : jsstring) : bool :=
  startsWith p s ||
  match s with
  | [] => false
  | _ :: s' => includes s' p
  end.

(** [a === b] on strings *)
Definition str_eqb (a b : jsstring) : bool := bool_decide (a = b).

(** A JavaScript number: NaN, an infinity, or the finite value [m * 2^e].
    The sign of a zero is not kept. *)
Inductive number :=
  | NaN
  | Infinity (negative : bool)
  | Finite (m e : Z).

(** [n / d] divided by [2^k], as a fraction. *)
Definition scale2 (n d k : Z) : Z * Z :=
  if 0 <=? k then (n, d * 2 ^ k) else (n * 2 ^ (- k), d).

(** The double nearest to [n / d] (for [0 <= n], [0 < d]), ties to even. *)
Definition roundToDouble (negative : bool) (n d : Z) : number :=
  if n =? 0 then Finite 0 0 else
  let l := Z.log2 n - Z.log2 d in
  let binade := let (a, b) := scale2 n d l in if b <=? a then l else l - 1 in
  let s := Z.max (binade - 52) (-1074) in
  let (a, b) := scale2 n d s in
  let q := a / b in
  let r := a mod b in
  let q' := if 2 * r <? b then q
            else if b <? 2 * r then q + 1
            else if Z.even q then q else q + 1 in
  if q' =? 0 then Finite 0 0
  else if 1024 <=? s + Z.log2 q' then Infinity negative
  else Finite (if negative then - q' else q') s.

Definition decimalDigit (c : N) : option Z :=
  if ((0x30 <=? c) && (c <=? 0x39))%N then Some (Z.of_N c - 0x30) else None.

Definition hexDigit (c : N) : option Z :=
  if ((0x30 <=? c) && (c <=? 0x39))%N then Some (Z.of_N c - 0x30)
  else if ((0x61 <=? c) && (c <=? 0x66))%N then Some (Z.of_N c - 0x61 + 10)
  else if ((0x41 <=? c) && (c <=? 0x46))%N then Some (Z.of_N c - 0x41 + 10)
  else None.

Definition octalDigit (c : N) : option Z :=
  if ((0x30 <=? c) && (c <=? 0x37))%N then Some (Z.of_N c - 0x30) else None.

Definition binaryDigit (c : N) : option Z :=
  if ((0x30 <=? c) && (c <=? 0x31))%N then Some (Z.of_N c - 0x30) else None.

(** The longest prefix of digits, and what follows it. *)
Fixpoint digits (digit : N -> option Z) (s : jsstring) : list Z * jsstring :=
  match s with
  | [] => ([], [])
  | c :: r =>
    match digit c with
    | Some d => let (ds, rest) := digits digit r in (d :: ds, rest)
    | None => ([], s)
    end
  end.

Definition valueOf (base : Z) (ds : list Z) : Z :=
  fold_left (fun acc d => acc * base + d) ds 0.

Definition signOf (s : jsstring) : bool * jsstring :=
  match s with
  | c :: r =>
    if (c =? 0x2D)%N then (true, r)
    else if (c =? 0x2B)%N then (false, r)
    else (false, s)
  | [] => (false, [])
  end.

(** ExponentPart, optional: [e] or [E], a signed integer, and nothing after. *)
Definition exponentPart (s : jsstring) : option Z :=
  match s with
  | [] => Some 0
  | c :: r =>
    if ((c =? 0x65) || (c =? 0x45))%N then
      let (negative, r1) := signOf r in
      let (ds, rest) := digits decimalDigit r1 in
      match ds, rest with
      | _ :: _, [] => Some (if negative then - valueOf 10 ds else valueOf 10 ds)
      | _, _ => None
      end
    else None
  end.

(** StrDecimalLiteral: a sign, then [Infinity] or decimal digits with an
    optional fraction and exponent. *)
Definition StrDecimalLiteral (s : jsstring) : number :=
  let (negative, u) := signOf s in
  if str_eqb u (js "Infinity") then Infinity negative else
  let (ip, r1) := digits decimalDigit u in
  let (fp, r2) :=
    match r1 with
    | c :: r => if (c =? 0x2E)%N then digits decimalDigit r else ([], r1)
    | [] => ([], [])
    end in
  match ip ++ fp with
  | [] => NaN
  | ds =>
    match exponentPart r2 with
    | None => NaN
    | Some ex =>
      let e10 := ex - Z.of_nat (length fp) in
      if 0 <=? e10 then roundToDouble negative (valueOf 10 ds * 10 ^ e10) 1
      else roundToDouble negative (valueOf 10 ds) (10 ^ (- e10))
    end
  end.

(** NonDecimalIntegerLiteral: [0x], [0o] or [0b] and digits of that base. *)
Definition NonDecimalIntegerLiteral (s : jsstring) : option number :=
  match s with
  | z :: p :: r =>
    if (z =? 0x30)%N then
      let lit (base : Z) (digit : N -> option Z) :=
        match digits digit r with
        | ((_ :: _) as ds, []) => Some (roundToDouble false (valueOf base ds) 1)
        | _ => Some NaN
        end in
      if ((p =? 0x78) || (p =? 0x58))%N then lit 16 hexDigit
      else if ((p =? 0x6F) || (p =? 0x4F))%N then lit 8 octalDigit
      else if ((p =? 0x62) || (p =? 0x42))%N then lit 2 binaryDigit
      else None
    else None
  | _ => None
  end.

(** [Number(s)] on a string: StringToNumber, the literal's value rounded
    to the nearest double. *)
Definition Number (s : jsstring) : number :=
  let text := trim s in
  match text with
  | [] => Finite 0 0
  | _ =>
    match NonDecimalIntegerLiteral text with
    | Some n => n
    | None => StrDecimalLiteral text
    end
  end.

(** [Number.isFinite] *)
Definition isFinite (n : number) : bool :=
  match n with
  | Finite _ _ => true
  | _ => false
  end.

(** [Math.trunc] of a finite number: the integer towards zero. *)
Definition trunc (m e : Z) : Z :=
  if 0 <=? e then m * 2 ^ e else Z.quot m (2 ^ (- e)).

(** [n === k] for an integer literal [k] *)
Definition num_eqb (n : number) (k : Z) : bool :=
  match n with
  | Finite m e => if 0 <=? e then m * 2 ^ e =? k else m =? k * 2 ^ (- e)
  | _ => false
  end.

(** [parts.join(sep)] *)
Fixpoint join (sep : jsstring) (parts : list jsstring) : jsstring :=
  match parts with
  | [] => []
  | [p] => p
  | p :: rest => p ++ sep ++ join sep rest
  end.

(** [a.slice(start)] on an array *)
Definition slice {A} (start : Z) (a : list A) : list A :=
  let len := Z.of_nat (length a) in
  let k := if start <? 0 then Z.max (len + start) 0 else Z.min start len in
  drop (Z.to_nat k) a.

(** Year, month (1..12) and day of the month of a day number, counted from
    1970-01-01, in the proleptic Gregorian calendar. *)
Definition civil (day : Z) : Z * Z * Z :=
  let z := day + 719468 in
  let era := z / 146097 in
  let doe := z - era * 146097 in
  let yoe := (doe - doe / 1460 + doe / 36524 - doe / 146096) / 365 in
  let doy := doe - (365 * yoe + yoe / 4 - yoe / 100) in
  let mp := (5 * doy + 2) / 153 in
  let d := doy - (153 * mp + 2) / 5 + 1 in
  let m := if mp <? 10 then mp + 3 else mp - 9 in
  let y := yoe + era * 400 + (if m <=? 2 then 1 else 0) in
  (y, m, d).

Definition digit (n : Z) : N := Z.to_N (0x30 + n).

(** The [k] lowest decimal digits of [n]: [n] padded with zeros to [k]
    places, for [0 <= n < 10^k]. *)
Fixpoint padded (k : nat) (n : Z) : jsstring :=
  match k with
  | O => []
  | S k' => padded k' (n / 10) ++ [digit (n mod 10)]
  end.

(** [Date.prototype.toISOString] of the time value [t], the milliseconds
    since the epoch of a valid date: [YYYY-MM-DDTHH:mm:ss.sssZ], the year
    with a sign and six digits outside 0..9999. *)
Definition toISOString (t : Z) : jsstring :=
  let day := t / 86400000 in
  let ms := t mod 86400000 in
  let '(y, m, d) := civil day in
  (if (0 <=? y) && (y <=? 9999) then padded 4 y
   else (if y <? 0 then 0x2D%N else 0x2B%N) :: padded 6 (Z.abs y))
  ++ [0x2D%N] ++ padded 2 m ++ [0x2D%N] ++ padded 2 d
  ++ [0x54%N] ++ padded 2 (ms / 3600000)
  ++ [0x3A%N] ++ padded 2 (ms / 60000 mod 60)
  ++ [0x3A%N] ++ padded 2 (ms / 1000 mod 60)
  ++ [0x2E%N] ++ padded 3 (ms mod 1000)
  ++ [0x5A%N].

(** The values a [catch] clause can receive and the JSON a message's
    metadata holds: primitives and objects with named properties. *)
#[warnings="-register-all"]
Inductive value :=
  | VUndefined
  | VNull
  | VBool (b : bool)
  | VNumber (n : number)
  | VString (s : jsstring)
  | VObject (props : list (string * value)).

Fixpoint lookup_prop (k : string) (props : list (string * value)) : value :=
  match props with
  | [] => VUndefined
  | (k', v) :: rest => if String.eqb k k' then v else lookup_prop k rest
  end.

(** [v?.k]: the property [k] of an object, [undefined] on anything else
    (no primitive has one of the properties this program reads). *)
Definition get (v : value) (k : string) : value :=
  match v with
  | VObject props => lookup_prop k props
  | _ => VUndefined
  end.

(** Truthiness, as [v ? a : b] tests it. *)
Definition truthy (v : value) : bool :=
  match v with
  | VUndefined | VNull => false
  | VBool b => b
  | VNumber NaN => false
  | VNumber (Infinity _) => true
  | VNumber (Finite m _) => negb (m =? 0)
  | VString [] => false
  | VString (_ :: _) => true
  | VObject _ => true
  end.

(** How a call ends: with a value, or with a thrown one. *)
Inductive outcome (A : Type) :=
  | Returned (a : A)
  | Thrown (err : value).
Arguments Returned {A} a.
Arguments Thrown {A} err.

End JS.

Import JS.

(** ** Configuration parsing: [clampInt] *)

(** [clampInt(value, min, max, fallback)]; an environment value is a string
    or [undefined]. The three modules that need it each carry this same
    function. *)
Definition clampInt (value : option jsstring) (min max fallback : Z) : Z :=
  let n :=
    match value with
    | Some v => if (0 <? length (trim v))%nat then Number v else NaN
    | None => NaN
    end in
  match n with
  | Finite m e => Z.max min (Z.min max (trunc m e))
  | _ => fallback
  end.

(** ** Data model *)

(** Rows of the [Conversation] and [Message] tables. Timestamps are
    milliseconds since the epoch. *)
Record Conversation := {
  conv_id : jsstring;
  conv_createdAt : Z;
  conv_updatedAt : Z;
  conv_channel : jsstring;
  conv_externalConversationId : option jsstring;
  conv_title : option jsstring
}.

Record Message := {
  msg_id : jsstring;
  msg_createdAt : Z;
  msg_conversationId : jsstring;
  msg_direction : jsstring;
  msg_content : jsstring;
  msg_externalMessageId : option jsstring;
  msg_metadata : option value
}.

(** [type Direction = "inbound" | "outbound"] *)
Inductive Direction := inbound | outbound.

Definition Direction_str (d : Direction) : jsstring :=
  match d with
  | inbound => js "inbound"
  | outbound => js "outbound"
  end.

(** The tables, rows in insertion order. *)
Record Db := {
  conversations : list Conversation;
  messages : list Message
}.

(** ** The provider's interface *)

Inductive Role := system | user | assistant.

Record ChatCompletionMessageParam := {
  role : Role;
  content : jsstring
}.

Record ChatCompletionCreateParams := {
  req_model : jsstring;
  req_messages : list ChatCompletionMessageParam;
  req_temperature : number;
  req_max_tokens : Z
}.

(** [completion.choices[0]?.message?.content]: every step may be absent. *)
Record ChatCompletionMessage := { completion_content : option jsstring }.
Record Choice := { choice_message : option ChatCompletionMessage }.
Record ChatCompletion := { choices : list Choice }.

(** [new OpenAI({ apiKey, timeout })] *)
Record OpenAI := {
  client_apiKey : jsstring;
  client_timeout : Z
}.

(** One invocation of [client.chat.completions.create]. *)
Record ProviderCall := {
  call_client : OpenAI;
  call_params : ChatCompletionCreateParams
}.

(** ** Effects *)

(** What a request can change or reach: the data store and the provider,
    of which the calls made so far are recorded. *)
Record World := {
  db : Db;
  calls : list ProviderCall
}.

Definition record_call (w : World) (call : ProviderCall) : World :=
  {| db := db w; calls := calls w ++ [call] |}.

(** An [async] function: from a world to how it ends and the world then. *)
Definition M (A : Type) : Type := World -> outcome A * World.

Definition ret {A} (a : A) : M A := fun w => (Returned a, w).

Definition throw {A} (err : value) : M A := fun w => (Thrown err, w).

Definition bind {A B} (m : M A) (k : A -> M B) : M B :=
  fun w =>
    match m w with
    | (Returned a, w') => k a w'
    | (Thrown err, w') => (Thrown err, w')
    end.

(** [try { body } catch (err) { handler }] *)
Definition try_catch {A} (body : M A) (handler : value -> M A) : M A :=
  fun w =>
    match body w with
    | (Returned a, w') => (Returned a, w')
    | (Thrown err, w') => handler err w'
    end.

Notation "'do' x <- m ; k" := (bind m (fun x => k))
  (at level 10, x name, m at level 100, k at level 200).

(** ** Prompts ([services/llm/prompts.ts]) *)

Definition SYSTEM_PROMPT : jsstring :=
  join [0x0A%N] (map js [
    "You are a helpful, concise e-commerce customer support agent for the store 'Spur'.";
    EmptyString;
    "## Operating Rules";
    "- Be friendly, professional, and direct.";
    "- Ask at most one clarifying question, and only when required to answer correctly.";
    "- Never invent order numbers, tracking numbers, refunds, delivery dates, or internal system actions.";
    "- If you are unsure or the question is outside the policies below, say so and offer next steps (contact support).";
    EmptyString;
    "## Store Policies (source of truth)";
    "Shipping:";
    "- Processing time: 1–2 business days.";
    "- Standard shipping: typically 3–7 business days after fulfillment.";
    "- Expedited shipping: may be available at checkout (when supported).";
    EmptyString;
    "Returns:";
    "- Return window: within 30 days of delivery.";
    "- Condition: unused and in original packaging.";
    "- Refunds: issued to the original payment method after inspection.";
    EmptyString;
    "Support hours:";
    "- Monday–Friday, 9:00am–5:00pm local business time.";
    "- Messages outside support hours: handled the next business day.";
    EmptyString;
    "## Policy-First Answering";
    "- When the user asks about shipping/returns/support hours, answer using the Store Policies above.";
    "- If the Store Policies do not cover the request, do not guess—ask one clarifying question or suggest contacting support."
  ]).

Definition FAQ_KNOWLEDGE : jsstring :=
  join [0x0A%N] (map js [
    "FAQ knowledge (same facts as Store Policies; provided redundantly to improve recall):";
    EmptyString;
    "Shipping policy:";
    "- Orders are processed in 1–2 business days.";
    "- Standard shipping typically arrives in 3–7 business days after fulfillment.";
    "- Expedited shipping options may be available at checkout (when supported).";
    EmptyString;
    "Return policy:";
    "- Returns are accepted within 30 days of delivery.";
    "- Items must be unused and in original packaging.";
    "- Refunds are issued to the original payment method after inspection.";
    EmptyString;
    "Support hours:";
    "- Monday–Friday, 9:00am–5:00pm local business time.";
    "- Messages outside support hours will be handled the next business day."
  ]).

(** ** The reply generator ([services/llm/generateReply.ts]) and the
    provider client ([services/llm/openaiClient.ts]) *)

Record HistoryTurn := {
  turn_role : Role;
  turn_content : jsstring
}.

Record GenerateReplyInput := { history : list HistoryTurn }.

Record ReplyMeta := {
  provider : jsstring;
  meta_model : jsstring;
  usedFallback : bool;
  errorCode : option jsstring
}.

Record GenerateReplyResult := {
  reply : jsstring;
  meta : ReplyMeta
}.

Record OpenAiClientConfig := {
  cfg_apiKey : jsstring;
  cfg_model : jsstring
}.

Record OpenAiClient := {
  oc_client : OpenAI;
  oc_model : jsstring
}.

(** [s || d] on an optional string: [undefined] and the empty string are
    falsy. *)
Definition or_default (s : option jsstring) (d : jsstring) : jsstring :=
  match s with
  | Some ((_ :: _) as v) => v
  | _ => d
  end.

Definition fallbackReply : jsstring :=
  js "Sorry, I'm having trouble right now. Please try again in a moment.".

(** [completion.choices[0]?.message?.content] *)
Definition firstContent (completion : ChatCompletion) : option jsstring :=
  match head (choices completion) with
  | Some choice =>
    match choice_message choice with
    | Some message => completion_content message
    | None => None
    end
  | None => None
  end.

Section LLM.

(** [String.prototype.toLowerCase], the runtime's. *)
Variable toLowerCase : jsstring -> jsstring.

(** [process.env] *)
Variable env : gmap string jsstring.

(** What the provider answers to a call. *)
Variable create : ProviderCall -> outcome ChatCompletion.

(** [process.env.NAME?.trim()] *)
Definition env_trim (name : string) : option jsstring :=
  option_map trim (env !! name).

Definition MAX_OUTPUT_TOKENS : Z := clampInt (env !! "LLM_MAX_OUTPUT_TOKENS") 1 2000 250.
Definition MAX_HISTORY_MESSAGES : Z := clampInt (env !! "LLM_HISTORY_LIMIT") 1 100 20.

(** The [status] a thrown value carries: [status], else [statusCode], else
    [error.status], the first that is a number. *)
Definition errStatus (e : value) : option number :=
  match get e "status" with
  | VNumber n => Some n
  | _ =>
    match get e "statusCode" with
    | VNumber n => Some n
    | _ =>
      match get (get e "error") "status" with
      | VNumber n => Some n
      | _ => None
      end
    end
  end.

(** The [code] a thrown value carries: [code], else [error.code], the first
    that is a string. *)
Definition errCode (e : value) : option jsstring :=
  match get e "code" with
  | VString c => Some c
  | _ =>
    match get (get e "error") "code" with
    | VString c => Some c
    | _ => None
    end
  end.

Definition status_is (status : option number) (k : Z) : bool :=
  match status with
  | Some n => num_eqb n k
  | None => false
  end.

Definition code_is (code : option jsstring) (k : string) : bool :=
  match code with
  | Some c => str_eqb c (js k)
  | None => false
  end.

Definition classifyOpenAiError (err : value) : jsstring :=
  let status := errStatus err in
  let code := errCode err in
  if status_is status 401 || status_is status 403 || code_is code "invalid_api_key"
  then js "invalid_api_key"
  else if status_is status 429 || code_is code "rate_limit_exceeded"
  then js "rate_limit"
  else
    let name := match get err "name" with VString s => s | _ => [] end in
    let message := match get err "message" with VString s => s | _ => [] end in
    if str_eqb name (js "AbortError") then js "timeout"
    else if code_is code "ETIMEDOUT" || code_is code "ECONNABORTED" then js "timeout"
    else if includes (toLowerCase message) (js "timeout")
            || includes (toLowerCase message) (js "timed out")
    then js "timeout"
    else js "provider_error".

Definition getOpenAiConfigFromEnv : option OpenAiClientConfig :=
  match env_trim "OPENAI_API_KEY" with
  | Some ((_ :: _) as apiKey) =>
    let model := or_default (env_trim "OPENAI_MODEL") (js "gpt-4o-mini") in
    Some {| cfg_apiKey := apiKey; cfg_model := model |}
  | _ => None
  end.

Definition getOpenAiClientFromEnvOrNull : option OpenAiClient :=
  match getOpenAiConfigFromEnv with
  | None => None
  | Some cfg =>
    let timeoutMs := clampInt (env !! "LLM_TIMEOUT_MS") 1000 120000 15000 in
    Some {| oc_client := {| client_apiKey := cfg_apiKey cfg;
                            client_timeout := timeoutMs |};
            oc_model := cfg_model cfg |}
  end.

(** [await client.chat.completions.create(params)]: the call is recorded,
    and ends as the provider decides. *)
Definition chat_completions_create (c : OpenAI) (params : ChatCompletionCreateParams)
  : M ChatCompletion :=
  fun w =>
    let call := {| call_client := c; call_params := params |} in
    (create call, record_call w call).

(** The literal [0.3] *)
Definition temperature : number := Eval vm_compute in Number (js "0.3").

Definition generateReply (input : GenerateReplyInput) : M GenerateReplyResult :=
  try_catch
    (let openai := getOpenAiClientFromEnvOrNull in
     let model :=
       match openai with
       | Some o => oc_model o
       | None => or_default (env_trim "OPENAI_MODEL") (js "gpt-4o-mini")
       end in
     match openai with
     | None =>
       ret {| reply := fallbackReply;
              meta := {| provider := js "openai"; meta_model := model;
                         usedFallback := true;
                         errorCode := Some (js "missing_api_key") |} |}
     | Some openai =>
       let boundedHistory := slice (- MAX_HISTORY_MESSAGES) (history input) in
       let messages :=
         {| role := system; content := SYSTEM_PROMPT |}
         :: {| role := system; content := FAQ_KNOWLEDGE |}
         :: map (fun m => {| role := turn_role m; content := turn_content m |})
                boundedHistory in
       do completion <-
         chat_completions_create (oc_client openai)
           {| req_model := oc_model openai;
              req_messages := messages;
              req_temperature := temperature;
              req_max_tokens := MAX_OUTPUT_TOKENS |};
       let reply := option_map trim (firstContent completion) in
       match reply with
       | Some ((_ :: _) as reply) =>
         ret {| reply := reply;
                meta := {| provider := js "openai"; meta_model := oc_model openai;
                           usedFallback := false; errorCode := None |} |}
       | _ =>
         ret {| reply := fallbackReply;
                meta := {| provider := js "openai"; meta_model := oc_model openai;
                           usedFallback := true;
                           errorCode := Some (js "empty_response") |} |}
       end
     end)
    (fun err =>
       let errorCode := classifyOpenAiError err in
       ret {| reply := fallbackReply;
              meta := {| provider := js "openai";
                         meta_model := or_default (env_trim "OPENAI_MODEL")
                                                  (js "gpt-4o-mini");
                         usedFallback := true;
                         errorCode := Some errorCode |} |}).

End LLM.

(** ** Errors ([utils/apiError.ts]) *)

(** [new ApiError({ statusCode, code, message })] *)
Definition ApiError (statusCode : Z) (code message : jsstring) : value :=
  VObject [("name", VString (js "Error"));
           ("message", VString message);
           ("statusCode", VNumber (Finite statusCode 0));
           ("code", VString code)].

Definition isApiError (err : value) : bool :=
  match err with
  | VObject _ =>
    match get err "statusCode", get err "code" with
    | VNumber _, VString _ => true
    | _, _ => false
    end
  | _ => false
  end.

(** ** Repositories ([db/repositories]) *)

Record CreateConversationInput := {
  cc_channel : jsstring;
  cc_title : option jsstring;
  cc_externalConversationId : option (option jsstring)
}.

Record CreateMessageInput := {
  cm_conversationId : jsstring;
  cm_direction : Direction;
  cm_content : jsstring;
  cm_metadata : option value
}.

Inductive SortOrder := asc | desc.

(** [a] may stand before [b] in a result ordered by [createdAt]. *)
Definition before (o : SortOrder) (a b : Message) : Prop :=
  match o with
  | asc => msg_createdAt a <= msg_createdAt b
  | desc => msg_createdAt b <= msg_createdAt a
  end.

(** Prisma's [take]: that many rows from the start of the ordered result,
    or from its end when negative. *)
Definition take_rows {A} (n : Z) (rows : list A) : list A :=
  if 0 <=? n then take (Z.to_nat n) rows
  else drop (length rows - Z.to_nat (- n)) rows.

(** The rows a [where: { conversationId }] clause selects. *)
Definition whereConversationId (conversationId : jsstring) (rows : list Message)
  : list Message :=
  filter (fun m => msg_conversationId m = conversationId) rows.

Section Store.

(** The data store fills in a new row's [id] and its timestamps, and
    orders the rows a query selects. Rows are always accepted: constraint
    violations and connection failures are outside this model. *)
Variable newId : Db -> jsstring.
Variable now : Db -> Z.
Variable orderByCreatedAt : SortOrder -> list Message -> list Message.

(** [prisma.conversation.create({ data })] *)
Definition createConversation (input : CreateConversationInput) : M Conversation :=
  fun w =>
    let row :=
      {| conv_id := newId (db w);
         conv_createdAt := now (db w);
         conv_updatedAt := now (db w);
         conv_channel := cc_channel input;
         conv_externalConversationId :=
           match cc_externalConversationId input with
           | Some ext => ext
           | None => None
           end;
         conv_title :=
           match cc_title input with
           | Some ((_ :: _) as title) => Some title
           | _ => None
           end |} in
    (Returned row,
     {| db := {| conversations := conversations (db w) ++ [row];
                 messages := messages (db w) |};
        calls := calls w |}).

(** [prisma.conversation.findUnique({ where: { id } })] *)
Definition findConversationById (id : jsstring) : M (option Conversation) :=
  fun w =>
    (Returned (List.find (fun c => str_eqb (conv_id c) id) (conversations (db w))), w).

(** [prisma.message.create({ data })] *)
Definition createMessage (input : CreateMessageInput) : M Message :=
  fun w =>
    let row :=
      {| msg_id := newId (db w);
         msg_createdAt := now (db w);
         msg_conversationId := cm_conversationId input;
         msg_direction := Direction_str (cm_direction input);
         msg_content := cm_content input;
         msg_externalMessageId := None;
         msg_metadata :=
           match cm_metadata input with
           | Some metadata => if truthy metadata then Some metadata else None
           | None => None
           end |} in
    (Returned row,
     {| db := {| conversations := conversations (db w);
                 messages := messages (db w) ++ [row] |};
        calls := calls w |}).

(** [prisma.message.findMany({ where: { conversationId }, orderBy: { createdAt }, take })] *)
Definition message_findMany (conversationId : jsstring) (order : SortOrder)
    (limit : option Z) : M (list Message) :=
  fun w =>
    let rows :=
      orderByCreatedAt order (whereConversationId conversationId (messages (db w))) in
    (Returned match limit with
              | Some n => take_rows n rows
              | None => rows
              end, w).

Definition listMessagesByConversationId (conversationId : jsstring) : M (list Message) :=
  message_findMany conversationId asc None.

Definition listRecentMessagesByConversationId (conversationId : jsstring) (limit : Z)
  : M (list Message) :=
  do recent <- message_findMany conversationId desc (Some limit);
  ret (reverse recent).

End Store.

(** ** The chat service ([services/chat/chatService.ts]) *)

Record SendMessageInput := {
  message : jsstring;
  sessionId : option jsstring
}.

Record SendMessageResult := {
  send_reply : jsstring;
  send_sessionId : jsstring
}.

Record ChatMessageDto := {
  dto_id : jsstring;
  dto_direction : jsstring;
  dto_content : jsstring;
  dto_createdAt : jsstring
}.

Record GetChatSessionResult := {
  session_reply : jsstring;
  session_sessionId : jsstring;
  session_messages : list ChatMessageDto
}.

Definition toDto (m : Message) : ChatMessageDto :=
  {| dto_id := msg_id m;
     dto_direction := msg_direction m;
     dto_content := msg_content m;
     dto_createdAt := toISOString (msg_createdAt m) |}.

Definition isOutbound (m : Message) : bool :=
  str_eqb (msg_direction m) (js "outbound").

Definition toLlmRole (direction : jsstring) : Role :=
  if str_eqb direction (js "inbound") then user else assistant.

Section Service.

Variable toLowerCase : jsstring -> jsstring.
Variable env : gmap string jsstring.
Variable create : ProviderCall -> outcome ChatCompletion.
Variable newId : Db -> jsstring.
Variable now : Db -> Z.
Variable orderByCreatedAt : SortOrder -> list Message -> list Message.

Definition HISTORY_LIMIT : Z := clampInt (env !! "LLM_HISTORY_LIMIT") 1 100 20.

Definition sendChatMessage (input : SendMessageInput) : M SendMessageResult :=
  let normalizedSessionId := option_map trim (sessionId input) in
  do conversation <-
    match normalizedSessionId with
    | Some ((_ :: _) as normalizedSessionId) => findConversationById normalizedSessionId
    | _ =>
      do c <- createConversation newId now
                {| cc_channel := js "web";
                   cc_title := Some (js "Web session");
                   cc_externalConversationId := None |};
      ret (Some c)
    end;
  match conversation with
  | None => throw (ApiError 404 (js "invalid_session") (js "Session not found"))
  | Some conversation =>
    let userText := trim (message input) in
    do _ <- createMessage newId now
              {| cm_conversationId := conv_id conversation;
                 cm_direction := inbound;
                 cm_content := userText;
                 cm_metadata := None |};
    do history <- listRecentMessagesByConversationId orderByCreatedAt
                    (conv_id conversation) HISTORY_LIMIT;
    do r <- generateReply toLowerCase env create
              {| history :=
                   map (fun m => {| turn_role := toLlmRole (msg_direction m);
                                    turn_content := msg_content m |}) history |};
    let safeLlmMeta :=
      VObject ([("provider", VString (provider (meta r)));
                ("model", VString (meta_model (meta r)));
                ("usedFallback", VBool (usedFallback (meta r)))]
               ++ match errorCode (meta r) with
                  | Some ((_ :: _) as errorCode) => [("errorCode", VString errorCode)]
                  | _ => []
                  end) in
    do _ <- createMessage newId now
              {| cm_conversationId := conv_id conversation;
                 cm_direction := outbound;
                 cm_content := reply r;
                 cm_metadata := Some (VObject [("llm", safeLlmMeta)]) |};
    ret {| send_reply := reply r; send_sessionId := conv_id conversation |}
  end.

Definition getChatSession (sessionId : jsstring) : M GetChatSessionResult :=
  do conversation <- findConversationById sessionId;
  match conversation with
  | None => throw (ApiError 404 (js "not_found") (js "Conversation not found"))
  | Some conversation =>
    do messages <- listMessagesByConversationId orderByCreatedAt (conv_id conversation);
    let lastOutbound := List.find isOutbound (reverse messages) in
    ret {| session_reply :=
             match lastOutbound with
             | Some m => msg_content m
             | None => []
             end;
           session_sessionId := conv_id conversation;
           session_messages := map toDto messages |}
  end.

(** ** The chat routes ([routes/chat.ts]) *)

(** A request body that passed [SendMessageBodySchema]. *)
Record SendMessageBody := {
  body_message : jsstring;
  body_sessionId : option jsstring
}.

(** The handler of [POST /chat/message]. *)
Definition postChatMessage (body : SendMessageBody) : M SendMessageResult :=
  let message := body_message body in
  let sessionId := body_sessionId body in
  if (length (trim message) =? 0)%nat then
    throw (ApiError 400 (js "empty_message") (js "Message must not be empty"))
  else
    let input :=
      match sessionId with
      | Some ((_ :: _) as sessionId) => {| message := message; sessionId := Some sessionId |}
      | _ => {| message := message; sessionId := None |}
      end in
    sendChatMessage input.

(** The handler of [GET /chat/:sessionId]. *)
Definition getChat (sessionId : jsstring) : M GetChatSessionResult :=
  getChatSession sessionId.

End Service.

(** ** Reference readings and sample platforms *)

(** The configuration rule read literally: the default for an absent, blank
    or non-numeric value, and otherwise [Math.max(min, Math.min(max,
    Math.trunc(n)))] of the number [n], whatever number that is. *)
Definition clampInt_as_specified (value : option jsstring) (min max fallback : Z) : Z :=
  match value with
  | None => fallback
  | Some v =>
    match trim v with
    | [] => fallback
    | _ =>
      match Number v with
      | NaN => fallback
      | Infinity false => Z.max min max
      | Infinity true => min
      | Finite m e => Z.max min (Z.min max (trunc m e))
      end
    end
  end.

(** What a configuration parameter is, given the environment value, the
    valid range and the default. *)
Inductive configured (min max fallback : Z) : option jsstring -> Z -> Prop :=
  | configured_absent :
      configured min max fallback None fallback
  | configured_blank v :
      trim v = [] ->
      configured min max fallback (Some v) fallback
  | configured_not_finite v :
      trim v <> [] -> isFinite (Number v) = false ->
      configured min max fallback (Some v) fallback
  | configured_number v m e :
      trim v <> [] -> Number v = Finite m e ->
      configured min max fallback (Some v) (Z.max min (Z.min max (trunc m e))).

(** ASCII lower-casing, a [toLowerCase] that agrees with the runtime's on
    ASCII text. *)
Definition asciiLower (s : jsstring) : jsstring :=
  map (fun c => if ((0x41 <=? c) && (c <=? 0x5A))%N then (c + 0x20)%N else c) s.

(** Sample environments. *)
Definition env_unconfigured : gmap string jsstring :=
  {[ "OPENAI_API_KEY" := js "   " ]}.

Definition env_configured : gmap string jsstring :=
  <[ "OPENAI_API_KEY" := js " sk-test " ]>
  (<[ "LLM_HISTORY_LIMIT" := js "2.9" ]>
  (<[ "LLM_TIMEOUT_MS" := js "500" ]>
  {[ "LLM_MAX_OUTPUT_TOKENS" := js "1e999" ]})).

(** A call ended by returning a value that satisfies [P]. *)
Definition returned {A} (o : outcome A) (P : A -> Prop) : Prop :=
  match o with
  | Returned a => P a
  | Thrown _ => False
  end.

(** The fallback result with a given model and error code. *)
Definition fallbackResult (model code : jsstring) : GenerateReplyResult :=
  {| reply := fallbackReply;
     meta := {| provider := js "openai"; meta_model := model;
                usedFallback := true; errorCode := Some code |} |}.

(** The call [generateReply] makes with a configured client. *)
Definition providerCall (env : gmap string jsstring) (openai : OpenAiClient)
    (input : GenerateReplyInput) : ProviderCall :=
  {| call_client := oc_client openai;
     call_params :=
       {| req_model := oc_model openai;
          req_messages :=
            {| role := system; content := SYSTEM_PROMPT |}
            :: {| role := system; content := FAQ_KNOWLEDGE |}
            :: map (fun m => {| role := turn_role m; content := turn_content m |})
                   (slice (- MAX_HISTORY_MESSAGES env) (history input));
          req_temperature := temperature;
          req_max_tokens := MAX_OUTPUT_TOKENS env |} |}.

(** The three kinds of failure the classification tells apart. *)
Definition invalid_credential (err : value) : bool :=
  status_is (errStatus err) 401 || status_is (errStatus err) 403
  || code_is (errCode err) "invalid_api_key".

Definition rate_limited (err : value) : bool :=
  status_is (errStatus err) 429 || code_is (errCode err) "rate_limit_exceeded".

Definition timeout_like (toLowerCase : jsstring -> jsstring) (err : value) : bool :=
  let name := match get err "name" with VString s => s | _ => [] end in
  let message := match get err "message" with VString s => s | _ => [] end in
  str_eqb name (js "AbortError")
  || (code_is (errCode err) "ETIMEDOUT" || code_is (errCode err) "ECONNABORTED")
  || (includes (toLowerCase message) (js "timeout")
      || includes (toLowerCase message) (js "timed out")).

(** The error codes a fallback result can carry. *)
Definition fallbackCodes : list jsstring :=
  map js ["missing_api_key"; "empty_response"; "invalid_api_key"; "timeout";
          "rate_limit"; "provider_error"].

(** The four ways a call of [generateReply] ends. *)
Inductive reply_case (toLowerCase : jsstring -> jsstring) (env : gmap string jsstring)
    (input : GenerateReplyInput) (w : World) : GenerateReplyResult -> World -> Prop :=
  | case_missing_api_key :
      reply_case toLowerCase env input w
        (fallbackResult (or_default (env_trim env "OPENAI_MODEL") (js "gpt-4o-mini"))
                        (js "missing_api_key")) w
  | case_provider_failure openai err :
      reply_case toLowerCase env input w
        (fallbackResult (or_default (env_trim env "OPENAI_MODEL") (js "gpt-4o-mini"))
                        (classifyOpenAiError toLowerCase err))
        (record_call w (providerCall env openai input))
  | case_empty_response openai :
      reply_case toLowerCase env input w
        (fallbackResult (oc_model openai) (js "empty_response"))
        (record_call w (providerCall env openai input))
  | case_reply openai text :
      text <> [] ->
      reply_case toLowerCase env input w
        {| reply := text;
           meta := {| provider := js "openai"; meta_model := oc_model openai;
                      usedFallback := false; errorCode := None |} |}
        (record_call w (providerCall env openai input)).

(** Sample providers: one that answers, one that is unreachable. *)
Definition provider_answers (text : string) (_ : ProviderCall) : outcome ChatCompletion :=
  Returned {| choices :=
    [{| choice_message := Some {| completion_content := Some (js text) |} |}] |}.

Definition provider_fails (err : value) (_ : ProviderCall) : outcome ChatCompletion :=
  Thrown err.

Definition world0 : World :=
  {| db := {| conversations := []; messages := [] |}; calls := [] |}.

(** The time values a date can hold. *)
Definition valid_time (t : Z) : Prop :=
  -8640000000000000 <= t <= 8640000000000000.

(** Reading [k] decimal digits. *)
Fixpoint readDigits (k : nat) (acc : Z) (s : jsstring) : option (Z * jsstring) :=
  match k with
  | O => Some (acc, s)
  | S k' =>
    match s with
    | c :: r =>
      match decimalDigit c with
      | Some d => readDigits k' (acc * 10 + d) r
      | None => None
      end
    | [] => None
    end
  end.

Definition expect (c : N) (s : option (Z * jsstring)) (lo hi : Z) (k : nat)
  : option (Z * jsstring) :=
  match s with
  | Some (v, c' :: r) =>
    if (c' =? c)%N && (lo <=? v) && (v <=? hi) then readDigits k 0 r else None
  | _ => None
  end.

(** An ISO-8601 date and time in UTC: [YYYY-MM-DDTHH:mm:ss.sssZ], or with an
    expanded year [+YYYYYY] or [-YYYYYY]; month, day, hour, minute and second
    within their ranges. *)
Definition isISO8601 (s : jsstring) : bool :=
  let year :=
    match s with
    | c :: r =>
      if ((c =? 0x2B) || (c =? 0x2D))%N then readDigits 6 0 r else readDigits 4 0 s
    | [] => None
    end in
  let month := expect 0x2D year 0 999999 2 in
  let day := expect 0x2D month 1 12 2 in
  let hour := expect 0x54 day 1 31 2 in
  let minute := expect 0x3A hour 0 23 2 in
  let second := expect 0x3A minute 0 59 2 in
  let milli := expect 0x2E second 0 59 3 in
  match milli with
  | Some (_, [z]) => (z =? 0x5A)%N
  | _ => false
  end.

(** A conversation with this identifier is stored. *)
Definition stored (w : World) (id : jsstring) : Prop :=
  exists c, c ∈ conversations (db w) /\ conv_id c = id.

(** A sample data store: rows ordered by a merge sort, identifiers and
    timestamps counted from the number of rows. *)
#[global] Instance before_dec o a b : Decision (before o a b).
Proof. destruct o; simpl; apply _. Defined.

Definition sortByCreatedAt (o : SortOrder) (rows : list Message) : list Message :=
  merge_sort (before o) rows.

Definition sample_newId (d : Db) : jsstring :=
  js "id-" ++ padded 4 (Z.of_nat (length (conversations d) + length (messages d))).

Definition sample_now (d : Db) : Z :=
  1766250000000 + Z.of_nat (length (messages d)).

Definition sample_message (id : string) (t : Z) (d : Direction) (text : string) : Message :=
  {| msg_id := js id; msg_createdAt := t; msg_conversationId := js "c1";
     msg_direction := Direction_str d; msg_content := js text;
     msg_externalMessageId := None; msg_metadata := None |}.

Definition sample_conversation : Conversation :=
  {| conv_id := js "c1"; conv_createdAt := 1766250000000;
     conv_updatedAt := 1766250000000; conv_channel := js "web";
     conv_externalConversationId := None;
     conv_title := Some (js "Web session") |}.

Definition sample_world : World :=
  {| db :=
       {| conversations := [sample_conversation];
          messages :=
            [sample_message "m1" 1766250000001 inbound "Hi";
             sample_message "m2" 1766250000002 outbound "Hello!";
             sample_message "m3" 1766250000003 inbound "Returns?";
             sample_message "m4" 1766250000004 outbound "Within 30 days."] |};
     calls := [] |}.

(** The client [env_configured] configures. *)
Definition openai_configured : OpenAiClient :=
  {| oc_client := {| client_apiKey := js "sk-test"; client_timeout := 1000 |};
     oc_model := js "gpt-4o-mini" |}.

Definition sample_input : GenerateReplyInput :=
  {| history :=
       [{| turn_role := user; turn_content := js "Hi" |};
        {| turn_role := assistant; turn_content := js "Hello!" |};
        {| turn_role := user; turn_content := js "Returns?" |}] |}.

(** What a rate-limited call and a timed-out call throw. *)
Definition rate_limit_error : value :=
  VObject [("name", VString (js "Error"));
           ("message", VString (js "Too many requests"));
           ("status", VNumber (Finite 429 0))].

Definition timeout_error : value :=
  VObject [("name", VString (js "Error"));
           ("message", VString (js "Request Timed Out."))].

(** Membership in a list that is written out. *)
Ltac in_list := apply list_elem_of_In; simpl; tauto.

(** ** What a send stores *)

Definition add_conversation (w : World) (c : Conversation) : World :=
  {| db := {| conversations := conversations (db w) ++ [c];
              messages := messages (db w) |};
     calls := calls w |}.

Definition add_message (w : World) (m : Message) : World :=
  {| db := {| conversations := conversations (db w);
              messages := messages (db w) ++ [m] |};
     calls := calls w |}.

(** The conversation a send without a session creates in the store [d]. *)
Definition webConversation (newId : Db -> jsstring) (now : Db -> Z) (d : Db)
  : Conversation :=
  {| conv_id := newId d;
     conv_createdAt := now d;
     conv_updatedAt := now d;
     conv_channel := js "web";
     conv_externalConversationId := None;
     conv_title := Some (js "Web session") |}.

(** The message row a store [d] makes of a conversation, a direction, a
    text and metadata. *)
Definition messageRow (newId : Db -> jsstring) (now : Db -> Z) (d : Db)
    (conversationId : jsstring) (direction : Direction) (text : jsstring)
    (metadata : option value) : Message :=
  {| msg_id := newId d;
     msg_createdAt := now d;
     msg_conversationId := conversationId;
     msg_direction := Direction_str direction;
     msg_content := text;
     msg_externalMessageId := None;
     msg_metadata := metadata |}.

(** The metadata stored with a reply. *)
Definition llmMetadata (m : ReplyMeta) : value :=
  VObject [("llm",
    VObject ([("provider", VString (provider m));
              ("model", VString (meta_model m));
              ("usedFallback", VBool (usedFallback m))]
             ++ match errorCode m with
                | Some ((_ :: _) as code) => [("errorCode", VString code)]
                | _ => []
                end))].

Definition toTurn (m : Message) : HistoryTurn :=
  {| turn_role := toLlmRole (msg_direction m); turn_content := msg_content m |}.

(** The history a send reads for a conversation, once the inbound message
    [inb] is stored. *)
Definition historyRead (env : gmap string jsstring)
    (orderByCreatedAt : SortOrder -> list Message -> list Message)
    (conversationId : jsstring) (w : World) : GenerateReplyInput :=
  {| history :=
       map toTurn
         (reverse (take_rows (HISTORY_LIMIT env)
            (orderByCreatedAt desc
               (whereConversationId conversationId (messages (db w)))))) |}.

(** A send from the point where its conversation is resolved: the inbound
    message, the reply, the outbound message. *)
Definition exchange (toLowerCase : jsstring -> jsstring) (env : gmap string jsstring)
    (create : ProviderCall -> outcome ChatCompletion)
    (newId : Db -> jsstring) (now : Db -> Z)
    (orderByCreatedAt : SortOrder -> list Message -> list Message)
    (text : jsstring) (c : Conversation) (w1 : World)
  : outcome SendMessageResult * World :=
  let w2 := add_message w1 (messageRow newId now (db w1) (conv_id c) inbound text None) in
  match generateReply toLowerCase env create
          (historyRead env orderByCreatedAt (conv_id c) w2) w2 with
  | (Returned r, w3) =>
    (Returned {| send_reply := reply r; send_sessionId := conv_id c |},
     add_message w3
       (messageRow newId now (db w3) (conv_id c) outbound (reply r)
          (Some (llmMetadata (meta r)))))
  | (Thrown err, w3) => (Thrown err, w3)
  end.

(** A sample send, on an empty store. *)
Definition sample_send_input : SendMessageInput :=
  {| message := js " Hi "; sessionId := None |}.

Definition sample_send : outcome SendMessageResult * World :=
  sendChatMessage asciiLower env_configured (provider_answers " Hello! ")
    sample_newId sample_now sortByCreatedAt sample_send_input world0.

Definition sample_sent : SendMessageResult :=
  {| send_reply := js "Hello!"; send_sessionId := js "id-0000" |}.

(** ** The error handler ([server.ts]) *)

Inductive LogLevel := log_error | log_info.

(** What the handler does: the status and the body's [error] it sends, and
    the level it logs at, if it logs. *)
Record ErrorReply := {
  reply_status : value;
  reply_error : value;
  reply_logged : option LogLevel
}.

(** [n >= k] for an integer literal [k] *)
Definition num_geb (n : number) (k : Z) : bool :=
  match n with
  | NaN => false
  | Infinity negative => negb negative
  | Finite m e => if 0 <=? e then k <=? m * 2 ^ e else k * 2 ^ (- e) <=? m
  end.

Definition TypeError (message : string) : value :=
  VObject [("name", VString (js "TypeError")); ("message", VString (js message))].

(** The handler set with [app.setErrorHandler], on the thrown value and
    the status the reply has so far. *)
Definition errorHandler (error : value) (replyStatusCode : number) : outcome ErrorReply :=
  if isApiError error then
    Returned {| reply_status := get error "statusCode";
                reply_error := get error "code";
                reply_logged := None |}
  else
    match error with
    | VUndefined =>
      Thrown (TypeError "Cannot read properties of undefined (reading 'statusCode')")
    | VNull =>
      Thrown (TypeError "Cannot read properties of null (reading 'statusCode')")
    | _ =>
      let maybeStatusCode :=
        match get error "statusCode" with
        | VNumber n => Some n
        | _ => None
        end in
      let statusCode :=
        let s := match maybeStatusCode with
                 | Some n => n
                 | None => if num_geb replyStatusCode 400 then replyStatusCode
                           else Finite 500 0
                 end in
        if truthy (VNumber s) then s else Finite 500 0 in
      let maybeCode :=
        match get error "code" with
        | VString c => Some c
        | _ => None
        end in
      Returned {| reply_status := VNumber statusCode;
                  reply_error :=
                    VString match maybeCode with
                            | Some c => c
                            | None => if num_geb statusCode 500
                                      then js "internal_server_error"
                                      else js "bad_request"
                            end;
                  reply_logged :=
                    Some (if num_geb statusCode 500 then log_error else log_info) |}
    end.

(** ** The frontend's proxy to the backend ([POST /api/chat/message]) *)

(** A parsed JSON text. *)
#[warnings="-register-all"]
Inductive json :=
  | JNull
  | JBool (b : bool)
  | JNumber (n : number)
  | JString (s : jsstring)
  | JArray (items : list json)
  | JObject (members : list (string * json)).

Fixpoint lookup_member (k : string) (members : list (string * json)) : option json :=
  match members with
  | [] => None
  | (k', v) :: rest => if String.eqb k k' then Some v else lookup_member k rest
  end.

(** [j.k] on a parsed JSON value other than [null]; [None] is [undefined]. *)
Definition json_get (j : json) (k : string) : option json :=
  match j with
  | JObject members => lookup_member k members
  | _ => None
  end.

Record UpstreamRequest := {
  up_url : jsstring;
  up_method : jsstring;
  up_contentType : jsstring;
  up_body : jsstring
}.

Record UpstreamResponse := {
  up_status : Z;
  up_text : outcome jsstring
}.

Record ProxyResponse := {
  proxy_status : Z;
  proxy_data : option json
}.

Definition error_body (code : string) : json := JObject [("error", JString (js code))].

(** [json(data, { status })]: a response, which cannot be made with a status
    outside 200..599, nor with a body and a status that allows none. *)
Definition respond (data : option json) (status : Z) : outcome ProxyResponse :=
  if (status <? 200) || (599 <? status) then
    Thrown (VObject [("name", VString (js "RangeError"))])
  else if ((status =? 204) || (status =? 205) || (status =? 304))
          && match data with Some _ => true | None => false end then
    Thrown (VObject [("name", VString (js "TypeError"))])
  else Returned {| proxy_status := status; proxy_data := data |}.

Section Proxy.

(** [env.BACKEND_URL], [JSON.stringify] and [JSON.parse], and what [fetch]
    answers. *)
Variable BACKEND_URL : option jsstring.
Variable JSON_stringify : json -> jsstring.
Variable JSON_parse : jsstring -> outcome json.
Variable fetch : UpstreamRequest -> outcome UpstreamResponse.

(** The handler, on how [request.json()] ended; with its result, the
    requests made to the backend. *)
Definition POST (request_json : outcome json)
  : outcome ProxyResponse * list UpstreamRequest :=
  match request_json with
  | Thrown _ => (respond (Some (error_body "invalid_json")) 400, [])
  | Returned JNull =>
    (Thrown (TypeError "Cannot read properties of null (reading 'message')"), [])
  | Returned body =>
    match json_get body "message" with
    | Some (JString message) =>
      if (length (trim message) =? 0)%nat then
        (respond (Some (error_body "empty_message")) 400, [])
      else
        let backendBaseUrl :=
          match BACKEND_URL with
          | Some url => url
          | None => js "http://localhost:3001"
          end in
        let request :=
          {| up_url := backendBaseUrl ++ js "/chat/message";
             up_method := js "POST";
             up_contentType := js "application/json";
             up_body := JSON_stringify body |} in
        let unreachable := respond (Some (error_body "backend_unreachable")) 502 in
        (match fetch request with
         | Thrown _ => unreachable
         | Returned upstream =>
           match up_text upstream with
           | Thrown _ => unreachable
           | Returned text =>
             let data :=
               match text with
               | [] => None
               | _ =>
                 match JSON_parse text with
                 | Returned parsed => Some parsed
                 | Thrown _ => Some (error_body "upstream_invalid_json")
                 end
               end in
             match respond data (up_status upstream) with
             | Returned response => Returned response
             | Thrown _ => unreachable
             end
           end
         end, [request])
    | _ => (respond (Some (error_body "empty_message")) 400, [])
    end
  end.

End Proxy.

(** A sample backend for the proxy: it answers 200 with a fixed text, which
    parses to a reply. *)
Definition sample_upstream (_ : UpstreamRequest) : outcome UpstreamResponse :=
  Returned {| up_status := 200; up_text := Returned (js "{}") |}.

Definition sample_parse (_ : jsstring) : outcome json :=
  Returned (JObject [("reply", JString (js "Hello!"));
                     ("sessionId", JString (js "id-0000"))]).

Definition sample_stringify (_ : json) : jsstring := js "{}".

(** A plain exception, such as a failed query throws. *)
Definition plain_error : value :=
  VObject [("name", VString (js "Error"));
           ("message", VString (js "Can't reach database server"))].

(** ** The frontend's proxy to the backend ([GET /api/chat/:sessionId]) *)

Record HistoryRequest := {
  hist_url : jsstring;
  hist_method : jsstring
}.

Section HistoryProxy.

(** [env.BACKEND_URL], [JSON.parse] and [encodeURIComponent], which throws on
    a lone surrogate, and what [fetch] answers. *)
Variable BACKEND_URL : option jsstring.
Variable JSON_parse : jsstring -> outcome json.
Variable encodeURIComponent : jsstring -> outcome jsstring.
Variable fetch : HistoryRequest -> outcome UpstreamResponse.

(** The handler, on the route's [sessionId] parameter; with its result, the
    requests made to the backend. *)
Definition GET (sessionId : jsstring)
  : outcome ProxyResponse * list HistoryRequest :=
  if (length sessionId =? 0)%nat || (length (trim sessionId) =? 0)%nat then
    (respond (Some (error_body "invalid_session")) 400, [])
  else
    let backendBaseUrl :=
      match BACKEND_URL with
      | Some url => url
      | None => js "http://localhost:3001"
      end in
    let unreachable := respond (Some (error_body "backend_unreachable")) 502 in
    match encodeURIComponent sessionId with
    | Thrown _ => (unreachable, [])
    | Returned encoded =>
      let request :=
        {| hist_url := backendBaseUrl ++ js "/chat/" ++ encoded;
           hist_method := js "GET" |} in
      (match fetch request with
       | Thrown _ => unreachable
       | Returned upstream =>
         match up_text upstream with
         | Thrown _ => unreachable
         | Returned text =>
           let data :=
             match text with
             | [] => None
             | _ =>
               match JSON_parse text with
               | Returned parsed => Some parsed
               | Thrown _ => Some (error_body "upstream_invalid_json")
               end
             end in
           match respond data (up_status upstream) with
           | Returned response => Returned response
           | Thrown _ => unreachable
           end
         end
       end, [request])
    end.

End HistoryProxy.

(** A sample backend for the history proxy, and an encoder for identifiers
    that need no escaping. *)
Definition sample_history_upstream (_ : HistoryRequest) : outcome UpstreamResponse :=
  Returned {| up_status := 200; up_text := Returned (js "{}") |}.

Definition sample_encode (s : jsstring) : outcome jsstring := Returned s.


(** * Properties *)

(** ** Strings *)

Lemma trim_nil : trim [] = [].
Proof. reflexivity. Qed.

Lemma blank_length (v : jsstring) : trim v = [] <-> (0 <? length (trim v))%nat = false.
Proof.
  destruct (trim v); simpl; split; intros H; try reflexivity; discriminate.
Qed.

(** ** Configuration parsing *)

Lemma clampInt_absent min max fallback : clampInt None min max fallback = fallback.
Proof. reflexivity. Qed.

Lemma clampInt_blank v min max fallback :
  trim v = [] -> clampInt (Some v) min max fallback = fallback.
Proof. intros H. unfold clampInt. rewrite H. reflexivity. Qed.

Lemma clampInt_nonblank v min max fallback :
  trim v <> [] ->
  clampInt (Some v) min max fallback =
  match Number v with
  | Finite m e => Z.max min (Z.min max (trunc m e))
  | _ => fallback
  end.
Proof.
  intros H. unfold clampInt. destruct (trim v); [congruence | reflexivity].
Qed.

Lemma clampInt_configured value min max fallback :
  configured min max fallback value (clampInt value min max fallback).
Proof.
  destruct value as [v|]; [| apply configured_absent].
  destruct (decide (trim v = [])) as [Hb | Hb].
  - rewrite clampInt_blank by exact Hb. apply configured_blank, Hb.
  - rewrite clampInt_nonblank by exact Hb.
    destruct (Number v) eqn:HN.
    + apply configured_not_finite; [exact Hb | rewrite HN; reflexivity].
    + apply configured_not_finite; [exact Hb | rewrite HN; reflexivity].
    + apply configured_number; assumption.
Qed.

Lemma configured_functional min max fallback value x y :
  configured min max fallback value x ->
  configured min max fallback value y -> x = y.
Proof.
  intros Hx Hy.
  inversion Hx; subst; inversion Hy; subst; try reflexivity; try congruence;
    match goal with
    | HF : Number ?v = Finite _ _, HI : isFinite (Number ?v) = false |- _ =>
      rewrite HF in HI; discriminate
    end.
Qed.

Lemma clampInt_range value min max fallback :
  min <= fallback <= max ->
  min <= clampInt value min max fallback <= max.
Proof.
  intros H. unfold clampInt.
  destruct value as [v|]; [| lia].
  destruct (0 <? length (trim v))%nat; [| lia].
  destruct (Number v); lia.
Qed.

(** C8, as stated, fails: the value ["1e999"] is not blank and is numeric
    (it denotes a number, not NaN), yet the history limit it configures is
    the default 20, not that number truncated and clamped, which is 100. *)
Lemma config_rule_as_stated_fails :
  trim (js "1e999") <> [] /\
  Number (js "1e999") = Infinity false /\
  MAX_HISTORY_MESSAGES {[ "LLM_HISTORY_LIMIT" := js "1e999" ]} = 20 /\
  clampInt_as_specified (Some (js "1e999")) 1 100 20 = 100 /\
  clampInt (Some (js "1e999")) 1 100 20
    <> clampInt_as_specified (Some (js "1e999")) 1 100 20.
Proof.
  repeat split; try (vm_compute; congruence); vm_compute; reflexivity.
Qed.

(** C8 (amended): for every environment, each configuration parameter is
    the stated default when its value is absent, blank, non-numeric or not
    finite, and otherwise the number truncated towards zero and clamped
    into the stated range; it always lies within that range. The
    parameters are the history limit of the LLM layer and of the chat
    service (default 20, range 1..100), the output cap (default 250, range
    1..2000) and the client's timeout (default 15000, range 1000..120000). *)
Theorem configuration_parameters (env : gmap string jsstring) :
  (configured 1 100 20 (env !! "LLM_HISTORY_LIMIT") (MAX_HISTORY_MESSAGES env)
   /\ 1 <= MAX_HISTORY_MESSAGES env <= 100) /\
  (configured 1 100 20 (env !! "LLM_HISTORY_LIMIT") (HISTORY_LIMIT env)
   /\ 1 <= HISTORY_LIMIT env <= 100) /\
  (configured 1 2000 250 (env !! "LLM_MAX_OUTPUT_TOKENS") (MAX_OUTPUT_TOKENS env)
   /\ 1 <= MAX_OUTPUT_TOKENS env <= 2000) /\
  (forall c, getOpenAiClientFromEnvOrNull env = Some c ->
     configured 1000 120000 15000 (env !! "LLM_TIMEOUT_MS")
       (client_timeout (oc_client c))
     /\ 1000 <= client_timeout (oc_client c) <= 120000).
Proof.
  repeat split;
    try apply clampInt_configured; try (apply clampInt_range; lia).
  all: unfold getOpenAiClientFromEnvOrNull in H;
    destruct (getOpenAiConfigFromEnv env); [| discriminate];
    injection H as <-; simpl.
  - apply clampInt_configured.
  - apply clampInt_range; lia.
  - apply clampInt_range; lia.
Qed.

(** The parameters of [env_configured]: a limit of "2.9" is 2, an output cap
    of "1e999" the default, a timeout of "500" the lower bound. *)
Lemma configuration_parameters_witness :
  MAX_HISTORY_MESSAGES env_configured = 2 /\
  MAX_OUTPUT_TOKENS env_configured = 250 /\
  exists c, getOpenAiClientFromEnvOrNull env_configured = Some c /\
            client_timeout (oc_client c) = 1000 /\
            1000 <= client_timeout (oc_client c) <= 120000.
Proof.
  split; [reflexivity |]. split; [reflexivity |].
  eexists. split; [reflexivity |]. split; [reflexivity |].
  apply (configuration_parameters env_configured). reflexivity.
Defined.

(** ** The provider client *)

Lemma getOpenAiConfigFromEnv_None (env : gmap string jsstring) :
  getOpenAiConfigFromEnv env = None <->
  (env !! "OPENAI_API_KEY" = None \/
   exists k, env !! "OPENAI_API_KEY" = Some k /\ trim k = []).
Proof.
  unfold getOpenAiConfigFromEnv, env_trim.
  destruct (env !! "OPENAI_API_KEY") as [k|]; simpl.
  - destruct (trim k) eqn:Hk; split; intros H.
    + right. exists k. split; [reflexivity | exact Hk].
    + reflexivity.
    + discriminate.
    + destruct H as [H | (k' & Hk' & Ht)]; [discriminate |].
      injection Hk' as <-. congruence.
  - split; intros _; [left |]; reflexivity.
Qed.

Lemma getOpenAiClientFromEnvOrNull_None (env : gmap string jsstring) :
  getOpenAiClientFromEnvOrNull env = None <->
  (env !! "OPENAI_API_KEY" = None \/
   exists k, env !! "OPENAI_API_KEY" = Some k /\ trim k = []).
Proof.
  rewrite <- getOpenAiConfigFromEnv_None. unfold getOpenAiClientFromEnvOrNull.
  destruct (getOpenAiConfigFromEnv env); split; intros H;
    try reflexivity; discriminate.
Qed.

Lemma getOpenAiClientFromEnvOrNull_model (env : gmap string jsstring) openai :
  getOpenAiClientFromEnvOrNull env = Some openai ->
  oc_model openai = or_default (env_trim env "OPENAI_MODEL") (js "gpt-4o-mini").
Proof.
  unfold getOpenAiClientFromEnvOrNull, getOpenAiConfigFromEnv.
  destruct (env_trim env "OPENAI_API_KEY") as [[|c k]|]; try discriminate.
  intros H. injection H as <-. reflexivity.
Qed.

(** ** The reply generator *)

Section LLM_properties.

Variable toLowerCase : jsstring -> jsstring.
Variable env : gmap string jsstring.
Variable create : ProviderCall -> outcome ChatCompletion.

Local Abbreviation generateReply := (generateReply toLowerCase env create).
Local Abbreviation classifyOpenAiError := (classifyOpenAiError toLowerCase).
Local Abbreviation default_model :=
  (or_default (env_trim env "OPENAI_MODEL") (js "gpt-4o-mini")).

Lemma generateReply_unconfigured input w :
  getOpenAiClientFromEnvOrNull env = None ->
  generateReply input w = (Returned (fallbackResult default_model (js "missing_api_key")), w).
Proof.
  intros H. unfold generateReply, try_catch. rewrite H. reflexivity.
Qed.

Lemma generateReply_thrown input w openai err :
  getOpenAiClientFromEnvOrNull env = Some openai ->
  create (providerCall env openai input) = Thrown err ->
  generateReply input w =
  (Returned (fallbackResult default_model (classifyOpenAiError err)),
   record_call w (providerCall env openai input)).
Proof.
  intros H Hc.
  unfold generateReply, try_catch, bind, chat_completions_create.
  rewrite H. fold (providerCall env openai input). rewrite Hc. reflexivity.
Qed.

Lemma generateReply_completed input w openai completion :
  getOpenAiClientFromEnvOrNull env = Some openai ->
  create (providerCall env openai input) = Returned completion ->
  generateReply input w =
  (Returned
     match option_map trim (firstContent completion) with
     | Some ((_ :: _) as reply) =>
       {| reply := reply;
          meta := {| provider := js "openai"; meta_model := oc_model openai;
                     usedFallback := false; errorCode := None |} |}
     | _ => fallbackResult (oc_model openai) (js "empty_response")
     end,
   record_call w (providerCall env openai input)).
Proof.
  intros H Hc.
  unfold generateReply, try_catch, bind, chat_completions_create.
  rewrite H. fold (providerCall env openai input). rewrite Hc.
  destruct (option_map trim (firstContent completion)) as [[|c r]|]; reflexivity.
Qed.

Lemma generateReply_cases input w :
  exists r w',
    generateReply input w = (Returned r, w') /\ reply_case toLowerCase env input w r w'.
Proof.
  destruct (getOpenAiClientFromEnvOrNull env) as [openai|] eqn:H.
  - destruct (create (providerCall env openai input)) as [completion | err] eqn:Hc.
    + rewrite (generateReply_completed _ _ _ _ H Hc).
      destruct (option_map trim (firstContent completion)) as [[|c r]|];
        eexists; eexists; (split; [reflexivity |]);
        try apply case_empty_response.
      apply case_reply. discriminate.
    + rewrite (generateReply_thrown _ _ _ _ H Hc).
      eexists; eexists; split; [reflexivity | apply case_provider_failure].
  - rewrite (generateReply_unconfigured _ _ H).
    eexists; eexists; split; [reflexivity | apply case_missing_api_key].
Qed.

Lemma classifyOpenAiError_precedence err :
  classifyOpenAiError err =
  if invalid_credential err then js "invalid_api_key"
  else if rate_limited err then js "rate_limit"
  else if timeout_like toLowerCase err then js "timeout"
  else js "provider_error".
Proof.
  unfold classifyOpenAiError, invalid_credential, rate_limited, timeout_like.
  destruct (status_is (errStatus err) 401 || status_is (errStatus err) 403
            || code_is (errCode err) "invalid_api_key"); [reflexivity |].
  destruct (status_is (errStatus err) 429
            || code_is (errCode err) "rate_limit_exceeded"); [reflexivity |].
  destruct (str_eqb _ (js "AbortError")); [reflexivity |].
  destruct (code_is (errCode err) "ETIMEDOUT" || code_is (errCode err) "ECONNABORTED");
    [reflexivity |].
  destruct (includes _ (js "timeout") || includes _ (js "timed out")); reflexivity.
Qed.

Lemma classifyOpenAiError_codes err :
  classifyOpenAiError err
  ∈ map js ["invalid_api_key"; "timeout"; "rate_limit"; "provider_error"].
Proof.
  rewrite classifyOpenAiError_precedence.
  destruct (invalid_credential err); [in_list |].
  destruct (rate_limited err); [in_list |].
  destruct (timeout_like toLowerCase err); in_list.
Qed.

(** C1: for every history and every outcome of the provider call,
    [generateReply] returns, with a non-empty reply and its metadata; it
    never ends by throwing. *)
Theorem generateReply_never_throws input w :
  returned (generateReply input w).1 (fun r => reply r <> []).
Proof.
  destruct (generateReply_cases input w) as (r & w' & -> & Hcase). simpl.
  destruct Hcase; simpl; try discriminate. assumption.
Qed.

(** C2: with no credential configured ([OPENAI_API_KEY] absent, or blank
    once trimmed), [generateReply] returns the fixed fallback reply with
    provider "openai", the model, [usedFallback] true and the error code
    "missing_api_key", and the world is as before: no provider call is made. *)
Theorem generateReply_missing_api_key input w
    (Hkey : env !! "OPENAI_API_KEY" = None \/
            exists k, env !! "OPENAI_API_KEY" = Some k /\ trim k = []) :
  generateReply input w =
  (Returned {| reply := fallbackReply;
               meta := {| provider := js "openai";
                          meta_model := default_model;
                          usedFallback := true;
                          errorCode := Some (js "missing_api_key") |} |}, w)
  /\ calls (generateReply input w).2 = calls w.
Proof.
  apply getOpenAiClientFromEnvOrNull_None in Hkey.
  rewrite (generateReply_unconfigured _ _ Hkey). split; reflexivity.
Qed.


(** C4: when the provider call succeeds, a content that trims to a
    non-empty string is returned trimmed, with provider "openai", the
    model, [usedFallback] false and no error code; an absent, empty or
    whitespace-only content gives the fallback reply with the error code
    "empty_response" and [usedFallback] true. *)
Theorem provider_completion input w openai completion
    (Hclient : getOpenAiClientFromEnvOrNull env = Some openai)
    (Hdone : create (providerCall env openai input) = Returned completion) :
  (forall content, firstContent completion = Some content -> trim content <> [] ->
   generateReply input w =
   (Returned {| reply := trim content;
                meta := {| provider := js "openai"; meta_model := oc_model openai;
                           usedFallback := false; errorCode := None |} |},
    record_call w (providerCall env openai input))) /\
  ((firstContent completion = None \/
    exists content, firstContent completion = Some content /\ trim content = []) ->
   generateReply input w =
   (Returned {| reply := fallbackReply;
                meta := {| provider := js "openai"; meta_model := oc_model openai;
                           usedFallback := true;
                           errorCode := Some (js "empty_response") |} |},
    record_call w (providerCall env openai input))).
Proof.
  rewrite (generateReply_completed _ _ _ _ Hclient Hdone). split.
  - intros content -> Hne. simpl.
    destruct (trim content); [congruence | reflexivity].
  - intros [-> | (content & -> & Hblank)]; simpl; [reflexivity |].
    rewrite Hblank. reflexivity.
Qed.

(** C10: for every input and every outcome of the provider call, the
    metadata [generateReply] returns names the provider "openai", and has
    an error code exactly when [usedFallback] is true: a fallback result
    carries one of missing_api_key, empty_response, invalid_api_key,
    timeout, rate_limit and provider_error, any other result none. *)
Theorem generateReply_meta_invariant input w :
  returned (generateReply input w).1 (fun r =>
    provider (meta r) = js "openai" /\
    (is_Some (errorCode (meta r)) <-> usedFallback (meta r) = true) /\
    (usedFallback (meta r) = true ->
     exists code, errorCode (meta r) = Some code /\ code ∈ fallbackCodes) /\
    (usedFallback (meta r) = false -> errorCode (meta r) = None)).
Proof.
  destruct (generateReply_cases input w) as (r & w' & -> & Hcase). simpl.
  assert (Hfallback : forall model code, code ∈ fallbackCodes ->
            let r := fallbackResult model code in
            provider (meta r) = js "openai" /\
            (is_Some (errorCode (meta r)) <-> usedFallback (meta r) = true) /\
            (usedFallback (meta r) = true ->
             exists code, errorCode (meta r) = Some code /\ code ∈ fallbackCodes) /\
            (usedFallback (meta r) = false -> errorCode (meta r) = None)).
  { intros model code Hcode. simpl. split; [reflexivity |]. split; [| split].
    - split; [reflexivity | intros _; eexists; reflexivity].
    - intros _. exists code. split; [reflexivity | exact Hcode].
    - discriminate. }
  destruct Hcase.
  - apply Hfallback. in_list.
  - apply Hfallback. pose proof (classifyOpenAiError_codes err) as Hc.
    unfold fallbackCodes. apply list_elem_of_In. apply list_elem_of_In in Hc.
    simpl in *. tauto.
  - apply Hfallback. in_list.
  - simpl. split; [reflexivity |]. split; [| split].
    + split; [intros [c Hc]; discriminate | discriminate].
    + discriminate.
    + reflexivity.
Qed.

End LLM_properties.

(** A blank key: the fallback, and no call. *)
Lemma generateReply_missing_api_key_witness :
  generateReply asciiLower env_unconfigured (provider_answers "Hello") sample_input world0 =
  (Returned {| reply := fallbackReply;
               meta := {| provider := js "openai";
                          meta_model := js "gpt-4o-mini";
                          usedFallback := true;
                          errorCode := Some (js "missing_api_key") |} |}, world0)
  /\ calls (generateReply asciiLower env_unconfigured (provider_answers "Hello")
              sample_input world0).2 = [].
Proof.
  apply (generateReply_missing_api_key asciiLower env_unconfigured
           (provider_answers "Hello") sample_input world0).
  right. exists (js "   "). split; reflexivity.
Defined.


(** A call that answers: the answer, trimmed. *)
Lemma provider_completion_witness :
  generateReply asciiLower env_configured (provider_answers "  Hello!  ") sample_input world0 =
  (Returned {| reply := js "Hello!";
               meta := {| provider := js "openai"; meta_model := js "gpt-4o-mini";
                          usedFallback := false; errorCode := None |} |},
   record_call world0 (providerCall env_configured openai_configured sample_input)).
Proof.
  destruct (provider_completion asciiLower env_configured
              (provider_answers "  Hello!  ") sample_input world0
              openai_configured _ eq_refl eq_refl) as (Hreply & _).
  apply (Hreply (js "  Hello!  ")); [reflexivity | discriminate].
Defined.

(** ** Timestamps *)

Lemma civil_range day :
  -100000000 <= day <= 100000000 ->
  match civil day with
  | (y, m, d) => -999999 <= y <= 999999 /\ 1 <= m <= 12 /\ 1 <= d <= 31
  end.
Proof.
  intros Hday. unfold civil.
  set (z := day + 719468).
  set (era := z / 146097).
  set (doe := z - era * 146097).
  assert (Hera : -700 <= era <= 700) by (subst era z; Z.div_mod_to_equations; lia).
  assert (Hdoe : 0 <= doe <= 146096) by (subst doe era; Z.div_mod_to_equations; lia).
  clearbody doe era. clear z Hday.
  set (yoe := (doe - doe / 1460 + doe / 36524 - doe / 146096) / 365).
  set (doy := doe - (365 * yoe + yoe / 4 - yoe / 100)).
  assert (Hyoe : 0 <= yoe <= 399) by (subst yoe; Z.div_mod_to_equations; lia).
  assert (Hdoy : 0 <= doy <= 365) by (subst doy yoe; Z.div_mod_to_equations; lia).
  clearbody doy yoe. clear Hdoe doe.
  set (mp := (5 * doy + 2) / 153).
  assert (Hmp : 0 <= mp <= 11) by (subst mp; Z.div_mod_to_equations; lia).
  assert (Hd : 1 <= doy - (153 * mp + 2) / 5 + 1 <= 31)
    by (subst mp; Z.div_mod_to_equations; lia).
  clearbody mp.
  destruct (mp <? 10) eqn:E; [apply Z.ltb_lt in E | apply Z.ltb_ge in E].
  - destruct (mp + 3 <=? 2); lia.
  - destruct (mp - 9 <=? 2); lia.
Qed.

Lemma decimalDigit_digit n : 0 <= n <= 9 -> decimalDigit (digit n) = Some n.
Proof.
  intros Hn. unfold decimalDigit, digit.
  destruct (0x30 <=? Z.to_N (0x30 + n))%N eqn:E1;
    [| apply N.leb_gt in E1; lia].
  destruct (Z.to_N (0x30 + n) <=? 0x39)%N eqn:E2;
    [| apply N.leb_gt in E2; lia].
  simpl. f_equal. lia.
Qed.

Lemma readDigits_padded k j acc n rest :
  0 <= n < 10 ^ Z.of_nat k ->
  readDigits (k + j) acc (padded k n ++ rest) =
  readDigits j (acc * 10 ^ Z.of_nat k + n) rest.
Proof.
  revert j acc n rest. induction k as [| k IH]; intros j acc n rest Hn.
  - simpl in *. f_equal. lia.
  - assert (Hpow : 10 ^ Z.of_nat (S k) = 10 * 10 ^ Z.of_nat k)
      by (rewrite Nat2Z.inj_succ, Z.pow_succ_r; lia).
    rewrite Hpow in *.
    assert (Hq : 0 <= n / 10 < 10 ^ Z.of_nat k)
      by (Z.div_mod_to_equations; lia).
    cbn [padded]. rewrite <- app_assoc.
    replace (S k + j)%nat with (k + S j)%nat by lia.
    rewrite IH by exact Hq.
    cbn [app readDigits].
    rewrite decimalDigit_digit by (Z.div_mod_to_equations; lia).
    f_equal. Z.div_mod_to_equations; lia.
Qed.

Lemma padded_head k n rest :
  exists d r, 0 <= d <= 9 /\ padded (S k) n ++ rest = digit d :: r.
Proof.
  revert n rest. induction k as [| k IH]; intros n rest.
  - exists (n mod 10), rest. split; [Z.div_mod_to_equations; lia | reflexivity].
  - change (padded (S (S k)) n) with (padded (S k) (n / 10) ++ [digit (n mod 10)]).
    rewrite <- app_assoc. apply IH.
Qed.

Lemma expect_padded c v lo hi k n rest :
  lo <= v <= hi -> 0 <= n < 10 ^ Z.of_nat k ->
  expect c (Some (v, c :: padded k n ++ rest)) lo hi k = Some (n, rest).
Proof.
  intros Hv Hn. unfold expect. rewrite N.eqb_refl.
  destruct (lo <=? v) eqn:E1; [| apply Z.leb_gt in E1; lia].
  destruct (v <=? hi) eqn:E2; [| apply Z.leb_gt in E2; lia].
  simpl. rewrite <- (Nat.add_0_r k) at 1.
  rewrite readDigits_padded by exact Hn. simpl. do 2 f_equal. all: lia.
Qed.

Lemma toISOString_ISO8601 t : valid_time t -> isISO8601 (toISOString t) = true.
Proof.
  unfold valid_time. intros Ht. unfold toISOString.
  pose proof (civil_range (t / 86400000)) as Hc.
  destruct (civil (t / 86400000)) as [[y m] d].
  destruct Hc as (Hy & Hm & Hd); [Z.div_mod_to_equations; lia |].
  set (ms := t mod 86400000).
  assert (Hms : 0 <= ms < 86400000) by (subst ms; Z.div_mod_to_equations; lia).
  clearbody ms.
  set (tail := [0x2D%N] ++ padded 2 m ++ _).
  assert (Htail : forall v, 0 <= v <= 999999 ->
            match expect 0x2E
                    (expect 0x3A
                       (expect 0x3A
                          (expect 0x54
                             (expect 0x2D
                                (expect 0x2D (Some (v, tail)) 0 999999 2)
                                1 12 2) 1 31 2) 0 23 2) 0 59 2) 0 59 3 with
            | Some (_, [z]) => (z =? 0x5A)%N
            | _ => false
            end = true).
  { intros v Hv. subst tail. cbn [app].
    rewrite expect_padded by (simpl; lia).
    rewrite expect_padded by (simpl; lia).
    rewrite expect_padded by (simpl; Z.div_mod_to_equations; lia).
    rewrite expect_padded by (simpl; Z.div_mod_to_equations; lia).
    rewrite expect_padded by (simpl; Z.div_mod_to_equations; lia).
    rewrite expect_padded by (simpl; Z.div_mod_to_equations; lia).
    reflexivity. }
  clearbody tail. unfold isISO8601.
  destruct ((0 <=? y) && (y <=? 9999)) eqn:Ey.
  - apply andb_true_iff in Ey as [Ey1 Ey2].
    apply Z.leb_le in Ey1. apply Z.leb_le in Ey2.
    destruct (padded_head 3 y tail) as (d0 & r & Hd0 & Hhead).
    rewrite Hhead.
    assert (Hsign : ((digit d0 =? 0x2B) || (digit d0 =? 0x2D))%N = false).
    { unfold digit. apply orb_false_iff. split; apply N.eqb_neq; lia. }
    rewrite Hsign. rewrite <- Hhead.
    change 4%nat with (4 + 0)%nat.
    rewrite readDigits_padded by (simpl; lia).
    simpl readDigits. replace (0 * 10 ^ Z.of_nat 4 + y) with y by lia.
    apply Htail. lia.
  - cbn [app].
    assert (Hsign : (((if (y <? 0)%Z then 0x2D else 0x2B) =? 0x2B)
                     || ((if (y <? 0)%Z then 0x2D else 0x2B) =? 0x2D))%N = true)
      by (destruct (y <? 0); reflexivity).
    rewrite Hsign.
    change 6%nat with (6 + 0)%nat.
    rewrite readDigits_padded by (simpl; lia).
    simpl readDigits. apply Htail. lia.
Qed.

(** ** The data store *)

Lemma str_eqb_eq (a b : jsstring) : str_eqb a b = true <-> a = b.
Proof. unfold str_eqb. apply bool_decide_eq_true. Qed.

Lemma find_not_stored w id :
  ~ stored w id ->
  List.find (fun c => str_eqb (conv_id c) id) (conversations (db w)) = None.
Proof.
  intros Hns. unfold stored in Hns.
  induction (conversations (db w)) as [| c l IH]; [reflexivity |].
  simpl. destruct (str_eqb (conv_id c) id) eqn:E.
  - exfalso. apply Hns. exists c. split; [left | apply str_eqb_eq, E].
  - apply IH. intros (c' & Hin & Hid). apply Hns. exists c'. split; [right |]; assumption.
Qed.

Lemma stored_find w id :
  stored w id ->
  exists c, List.find (fun c => str_eqb (conv_id c) id) (conversations (db w)) = Some c
            /\ conv_id c = id.
Proof.
  intros (c0 & Hin & Hid0).
  destruct (List.find (fun c => str_eqb (conv_id c) id) (conversations (db w)))
    as [c |] eqn:Hfind.
  - exists c. split; [reflexivity |].
    apply find_some in Hfind as [_ Hid]. apply str_eqb_eq, Hid.
  - apply list_elem_of_In in Hin.
    pose proof (find_none _ _ Hfind c0 Hin) as Hno. simpl in Hno.
    apply str_eqb_eq in Hid0. congruence.
Qed.

#[local] Instance before_transitive o : Transitive (before o).
Proof. intros a b c. destruct o; simpl; lia. Qed.

#[local] Instance before_total o : Total (before o).
Proof. intros a b. destruct o; simpl; lia. Qed.

Lemma sortByCreatedAt_Permutation o rows : sortByCreatedAt o rows ≡ₚ rows.
Proof. apply merge_sort_Permutation. Qed.

Lemma sortByCreatedAt_Sorted o rows : Sorted (before o) (sortByCreatedAt o rows).
Proof. apply (Sorted_merge_sort (before o)). Qed.

Lemma reverse_desc_chronological rows :
  StronglySorted (before desc) rows -> StronglySorted (before asc) (reverse rows).
Proof.
  intros H. apply (Sorted_StronglySorted (before asc)).
  apply (Sorted_reverse (before desc)), StronglySorted_Sorted, H.
Qed.

Lemma take_desc_sorted (orderByCreatedAt : SortOrder -> list Message -> list Message)
    (N : nat) rows :
  Sorted (before desc) (orderByCreatedAt desc rows) ->
  StronglySorted (before desc)
    (take N (orderByCreatedAt desc rows) ++ drop N (orderByCreatedAt desc rows)).
Proof.
  intros H. rewrite take_drop. apply (Sorted_StronglySorted (before desc)), H.
Qed.

Lemma take_rows_nat {A} (n : nat) (rows : list A) :
  take_rows (Z.of_nat n) rows = take n rows.
Proof.
  unfold take_rows. destruct (0 <=? Z.of_nat n) eqn:E; [| apply Z.leb_gt in E; lia].
  rewrite Nat2Z.id. reflexivity.
Qed.

Lemma slice_last {A} (n : Z) (a : list A) :
  1 <= n ->
  slice (- n) a = drop (length a - Z.to_nat n) a /\
  (length (slice (- n) a) <= Z.to_nat n)%nat.
Proof.
  intros Hn. unfold slice.
  destruct (- n <? 0) eqn:E; [| apply Z.ltb_ge in E; lia].
  replace (Z.to_nat (Z.max (Z.of_nat (length a) + - n) 0))
    with (length a - Z.to_nat n)%nat by lia.
  split; [reflexivity |]. rewrite length_drop. lia.
Qed.

Lemma find_first {A} (P : A -> bool) (l : list A) :
  match List.find P l with
  | Some x => exists pre post, l = pre ++ x :: post /\ P x = true /\
                               forall y, y ∈ pre -> P y = false
  | None => forall y, y ∈ l -> P y = false
  end.
Proof.
  induction l as [| a l IH]; simpl.
  - intros y Hy. inversion Hy.
  - destruct (P a) eqn:Ea.
    + exists [], l. split; [reflexivity |]. split; [exact Ea |].
      intros y Hy. inversion Hy.
    + destruct (List.find P l) as [x |].
      * destruct IH as (pre & post & -> & Hx & Hpre).
        exists (a :: pre), post. split; [reflexivity |]. split; [exact Hx |].
        intros y Hy. apply elem_of_cons in Hy as [-> | Hy]; auto.
      * intros y Hy. apply elem_of_cons in Hy as [-> | Hy]; auto.
Qed.

Lemma find_last {A} (P : A -> bool) (l : list A) :
  match List.find P (reverse l) with
  | Some x => exists older newer, l = older ++ x :: newer /\ P x = true /\
                                  forall y, y ∈ newer -> P y = false
  | None => forall y, y ∈ l -> P y = false
  end.
Proof.
  pose proof (find_first P (reverse l)) as H.
  destruct (List.find P (reverse l)) as [x |].
  - destruct H as (pre & post & Hl & Hx & Hpre).
    exists (reverse post), (reverse pre). split; [| split; [exact Hx |]].
    + rewrite <- (reverse_involutive l), Hl.
      rewrite reverse_app, reverse_cons, <- app_assoc. reflexivity.
    + intros y Hy. apply Hpre, elem_of_reverse, Hy.
  - intros y Hy. apply H, elem_of_reverse, Hy.
Qed.

(** ** The chat service and its routes *)

Section Service_properties.

Variable toLowerCase : jsstring -> jsstring.
Variable env : gmap string jsstring.
Variable create : ProviderCall -> outcome ChatCompletion.
Variable newId : Db -> jsstring.
Variable now : Db -> Z.
Variable orderByCreatedAt : SortOrder -> list Message -> list Message.

Local Abbreviation sendChatMessage :=
  (sendChatMessage toLowerCase env create newId now orderByCreatedAt).
Local Abbreviation postChatMessage :=
  (postChatMessage toLowerCase env create newId now orderByCreatedAt).
Local Abbreviation getChatSession := (getChatSession orderByCreatedAt).
Local Abbreviation getChat := (getChat orderByCreatedAt).

(** C6: a message that trims to the empty string makes the send operation
    fail with the EmptyMessage error (status 400, code "empty_message"),
    and the world is as before: no conversation is created, no message is
    persisted, no provider call is made. *)
Theorem empty_message_rejected body w (Hblank : trim (body_message body) = []) :
  postChatMessage body w =
  (Thrown (ApiError 400 (js "empty_message") (js "Message must not be empty")), w)
  /\ isApiError (ApiError 400 (js "empty_message") (js "Message must not be empty")) = true
  /\ db (postChatMessage body w).2 = db w.
Proof.
  unfold postChatMessage. rewrite Hblank. simpl. repeat split.
Qed.

Lemma sendChatMessage_unknown_session message sid w :
  trim sid <> [] -> ~ stored w (trim sid) ->
  sendChatMessage {| message := message; sessionId := Some sid |} w =
  (Thrown (ApiError 404 (js "invalid_session") (js "Session not found")), w).
Proof.
  intros Hne Hns.
  unfold sendChatMessage, bind. simpl.
  destruct (trim sid) as [| c r] eqn:Hsid; [congruence |].
  unfold findConversationById. rewrite (find_not_stored _ _ Hns). reflexivity.
Qed.

Lemma getChatSession_unknown_session sid w :
  ~ stored w sid ->
  getChatSession sid w =
  (Thrown (ApiError 404 (js "not_found") (js "Conversation not found")), w).
Proof.
  intros Hns. unfold getChatSession, bind, findConversationById.
  rewrite (find_not_stored _ _ Hns). reflexivity.
Qed.


(** The data store's contract for [orderBy: { createdAt }]: the rows it
    was given, in an order that respects the timestamps. Rows with equal
    timestamps come in an order of its choosing. *)
Hypothesis orderBy_Permutation :
  forall o rows, orderByCreatedAt o rows ≡ₚ rows.
Hypothesis orderBy_Sorted :
  forall o rows, Sorted (before o) (orderByCreatedAt o rows).



End Service_properties.


(** A message of three spaces. *)
Lemma empty_message_rejected_witness :
  postChatMessage asciiLower env_configured (provider_answers "Hello")
    sample_newId sample_now sortByCreatedAt
    {| body_message := js "   "; body_sessionId := None |} sample_world =
  (Thrown (ApiError 400 (js "empty_message") (js "Message must not be empty")),
   sample_world).
Proof.
  assert (Hblank : trim (js "   ") = []) by reflexivity.
  destruct (empty_message_rejected asciiLower env_configured (provider_answers "Hello")
              sample_newId sample_now sortByCreatedAt
              {| body_message := js "   "; body_sessionId := None |} sample_world
              Hblank) as [Hthrown _].
  exact Hthrown.
Defined.

Lemma sample_world_not_stored : ~ stored sample_world (js "nope").
Proof.
  intros (c & Hin & Hid). apply list_elem_of_In in Hin. simpl in Hin.
  destruct Hin as [<- | []]. discriminate.
Qed.



(** ** The model at work *)

Example Number_samples :
  Number (js " 42 ") = Finite 5910974510923776 (-47) /\
  clampInt (Some (js " 42 ")) 1 100 20 = 42 /\
  clampInt (Some (js "55.9")) 1 100 20 = 55 /\
  clampInt (Some (js "-7")) 1 100 20 = 1 /\
  clampInt (Some (js "0x10")) 1 100 20 = 16 /\
  clampInt (Some (js "1e3")) 1 100 20 = 100 /\
  clampInt (Some (js "12px")) 1 100 20 = 20 /\
  clampInt (Some (js "Infinity")) 1 100 20 = 20 /\
  clampInt (Some (js "1000.99999999999999999")) 1000 120000 15000 = 1001.
Proof. repeat split; vm_compute; reflexivity. Qed.

Example classification_samples :
  classifyOpenAiError asciiLower rate_limit_error = js "rate_limit" /\
  classifyOpenAiError asciiLower timeout_error = js "timeout" /\
  classifyOpenAiError asciiLower
    (VObject [("status", VNumber (Finite 401 0));
              ("code", VString (js "rate_limit_exceeded"));
              ("message", VString (js "timeout"))]) = js "invalid_api_key" /\
  classifyOpenAiError asciiLower
    (VObject [("error", VObject [("code", VString (js "rate_limit_exceeded"))]);
              ("name", VString (js "AbortError"))]) = js "rate_limit" /\
  classifyOpenAiError asciiLower (VString (js "timeout")) = js "provider_error".
Proof. repeat split; vm_compute; reflexivity. Qed.

Example toISOString_samples :
  toISOString 0 = js "1970-01-01T00:00:00.000Z" /\
  toISOString 1766250000123 = js "2025-12-20T17:00:00.123Z" /\
  toISOString (-1) = js "1969-12-31T23:59:59.999Z" /\
  toISOString 8640000000000000 = js "+275760-09-13T00:00:00.000Z".
Proof. repeat split; vm_compute; reflexivity. Qed.

(** Two sends on one session, the second while the provider is rate
    limited, then a read of the session. *)
Example two_sends_and_a_read :
  let send p text sid :=
    sendChatMessage asciiLower env_configured p sample_newId sample_now
      sortByCreatedAt {| message := js text; sessionId := sid |} in
  let first := send (provider_answers " Hello! ") "Hi" None world0 in
  let second :=
    send (provider_fails rate_limit_error) "Again" (Some (js " id-0000 ")) first.2 in
  first.1 = Returned {| send_reply := js "Hello!"; send_sessionId := js "id-0000" |} /\
  second.1 = Returned {| send_reply := fallbackReply; send_sessionId := js "id-0000" |} /\
  map (fun m => (msg_direction m, msg_content m)) (messages (db second.2)) =
    [(js "inbound", js "Hi"); (js "outbound", js "Hello!");
     (js "inbound", js "Again"); (js "outbound", fallbackReply)] /\
  map (fun c => length (req_messages (call_params c))) (calls second.2) = [3; 4]%nat /\
  match (getChatSession sortByCreatedAt (js "id-0000") second.2).1 with
  | Returned r =>
    session_reply r = fallbackReply /\
    map dto_direction (session_messages r) =
      map js ["inbound"; "outbound"; "inbound"; "outbound"]
  | Thrown _ => False
  end.
Proof. vm_compute. repeat split; reflexivity. Qed.

(** The service itself accepts a blank message: the guard against it is the
    route's. *)
Example blank_message_to_the_service :
  let sent :=
    sendChatMessage asciiLower env_unconfigured (provider_answers "Hello")
      sample_newId sample_now sortByCreatedAt
      {| message := js "   "; sessionId := None |} world0 in
  sent.1 = Returned {| send_reply := fallbackReply; send_sessionId := js "id-0000" |} /\
  map (fun m => (msg_direction m, msg_content m)) (messages (db sent.2)) =
    [(js "inbound", []); (js "outbound", fallbackReply)] /\
  calls sent.2 = [].
Proof. vm_compute. repeat split; reflexivity. Qed.

(** * Further properties *)

(** ** Trimming *)

Lemma trimStart_head s :
  match trimStart s with
  | [] => True
  | c :: _ => isWhiteSpace c = false
  end.
Proof.
  induction s as [| c s IH]; simpl; [exact I |].
  destruct (isWhiteSpace c) eqn:E; [exact IH | exact E].
Qed.

Lemma trimStart_fixed s :
  match s with
  | [] => True
  | c :: _ => isWhiteSpace c = false
  end -> trimStart s = s.
Proof. destruct s as [| c s]; simpl; [reflexivity |]. intros ->. reflexivity. Qed.

Lemma trimStart_suffix s : exists ws, s = ws ++ trimStart s.
Proof.
  induction s as [| c s [ws IH]]; simpl; [exists []; reflexivity |].
  destruct (isWhiteSpace c).
  - exists (c :: ws). simpl. f_equal. exact IH.
  - exists []. reflexivity.
Qed.

Lemma trimEnd_prefix s : exists ws, s = trimEnd s ++ ws.
Proof.
  unfold trimEnd. destruct (trimStart_suffix (rev s)) as [ws Hws].
  exists (rev ws). rewrite <- rev_app_distr, <- Hws, rev_involutive. reflexivity.
Qed.

Lemma trim_head s :
  match trim s with
  | [] => True
  | c :: _ => isWhiteSpace c = false
  end.
Proof.
  unfold trim. pose proof (trimStart_head s) as Hh.
  destruct (trimEnd_prefix (trimStart s)) as [ws Hws].
  destruct (trimEnd (trimStart s)) as [| c r]; [exact I |].
  rewrite Hws in Hh. exact Hh.
Qed.

Lemma trim_idempotent s : trim (trim s) = trim s.
Proof.
  unfold trim at 1. rewrite (trimStart_fixed _ (trim_head s)).
  unfold trim, trimEnd. rewrite rev_involutive.
  rewrite (trimStart_fixed _ (trimStart_head (rev (trimStart s)))).
  reflexivity.
Qed.

(** ** The repositories *)

Lemma find_app_fresh {A} (P : A -> bool) l x :
  List.find P l = None -> List.find P (l ++ [x]) = if P x then Some x else None.
Proof.
  induction l as [| a l IH]; simpl; [reflexivity |].
  destruct (P a); [discriminate | exact IH].
Qed.

Lemma find_app_other {A} (P : A -> bool) l x :
  P x = false -> List.find P (l ++ [x]) = List.find P l.
Proof.
  intros Hx. induction l as [| a l IH]; simpl; [rewrite Hx; reflexivity |].
  destruct (P a); [reflexivity | exact IH].
Qed.

Lemma str_eqb_neq (a b : jsstring) : str_eqb a b = false <-> a <> b.
Proof. unfold str_eqb. apply bool_decide_eq_false. Qed.

Lemma find_none_not_stored w id :
  List.find (fun c => str_eqb (conv_id c) id) (conversations (db w)) = None ->
  ~ stored w id.
Proof.
  intros Hfind (c & Hin & Hid). apply list_elem_of_In in Hin.
  pose proof (find_none _ _ Hfind c Hin) as Hno. simpl in Hno.
  apply str_eqb_neq in Hno. contradiction.
Qed.

Lemma whereConversationId_snoc conversationId rows m :
  whereConversationId conversationId (rows ++ [m]) =
  whereConversationId conversationId rows
  ++ (if decide (msg_conversationId m = conversationId) then [m] else []).
Proof.
  unfold whereConversationId. rewrite filter_app. reflexivity.
Qed.

Section Store_properties.

Variable newId : Db -> jsstring.
Variable now : Db -> Z.
Variable orderByCreatedAt : SortOrder -> list Message -> list Message.

Hypothesis orderBy_Permutation :
  forall o rows, orderByCreatedAt o rows ≡ₚ rows.
Hypothesis orderBy_Sorted :
  forall o rows, Sorted (before o) (orderByCreatedAt o rows).




End Store_properties.

(** ** The reply generator, further *)

Lemma or_default_nonempty s d : d <> [] -> or_default s d <> [].
Proof. intros Hd. destruct s as [[| c r] |]; simpl; [exact Hd | discriminate | exact Hd]. Qed.

Lemma or_default_trimmed s d :
  trim d = d -> trim (or_default (option_map trim s) d) = or_default (option_map trim s) d.
Proof.
  intros Hd. destruct s as [v |]; simpl; [| exact Hd].
  destruct (trim v) eqn:Hv; [exact Hd |]. rewrite <- Hv. apply trim_idempotent.
Qed.

Lemma getOpenAiClientFromEnvOrNull_Some (env : gmap string jsstring) openai :
  getOpenAiClientFromEnvOrNull env = Some openai ->
  exists k, env !! "OPENAI_API_KEY" = Some k /\ trim k <> [] /\
            client_apiKey (oc_client openai) = trim k /\
            client_timeout (oc_client openai)
              = clampInt (env !! "LLM_TIMEOUT_MS") 1000 120000 15000.
Proof.
  unfold getOpenAiClientFromEnvOrNull, getOpenAiConfigFromEnv, env_trim.
  destruct (env !! "OPENAI_API_KEY") as [k |]; simpl; [| discriminate].
  destruct (trim k) as [| c r] eqn:Hk; [discriminate |].
  intros H. injection H as <-. simpl. exists k. rewrite Hk.
  repeat split. discriminate.
Qed.

Lemma slice_suffix {A} (n : Z) (pre h : list A) :
  1 <= n -> (Z.to_nat n <= length h)%nat ->
  slice (- n) (pre ++ h) = slice (- n) h.
Proof.
  intros Hn Hlen.
  rewrite (proj1 (slice_last n (pre ++ h) Hn)), (proj1 (slice_last n h Hn)).
  rewrite length_app.
  replace (length pre + length h - Z.to_nat n)%nat
    with (length pre + (length h - Z.to_nat n))%nat by lia.
  apply drop_app_add.
Qed.

Section LLM_further.

Variable toLowerCase : jsstring -> jsstring.
Variable env : gmap string jsstring.
Variable create : ProviderCall -> outcome ChatCompletion.

Local Abbreviation generateReply := (generateReply toLowerCase env create).
Local Abbreviation default_model :=
  (or_default (env_trim env "OPENAI_MODEL") (js "gpt-4o-mini")).

(** X4: whatever the outcome, the model [generateReply] reports is the same:
    the trimmed [OPENAI_MODEL] when that is not blank, else "gpt-4o-mini";
    it is never empty. *)
Theorem reported_model input w :
  returned (generateReply input w).1 (fun r =>
    meta_model (meta r) = default_model /\ meta_model (meta r) <> []).
Proof.
  assert (Hne : default_model <> []) by (apply or_default_nonempty; discriminate).
  destruct (getOpenAiClientFromEnvOrNull env) as [openai |] eqn:H.
  - pose proof (getOpenAiClientFromEnvOrNull_model _ _ H) as Hm.
    destruct (create (providerCall env openai input)) as [completion | err] eqn:Hc.
    + rewrite (generateReply_completed _ _ _ _ _ _ _ H Hc). simpl.
      destruct (option_map trim (firstContent completion)) as [[| c r] |];
        simpl; rewrite Hm; split; (reflexivity || exact Hne).
    + rewrite (generateReply_thrown _ _ _ _ _ _ _ H Hc). simpl.
      split; [reflexivity | exact Hne].
  - rewrite (generateReply_unconfigured _ _ _ _ _ H). simpl.
    split; [reflexivity | exact Hne].
Qed.

(** X5: [generateReply] calls the provider at most once: never without a key,
    and once with one. That call is made with the trimmed key, a timeout
    within 1000..120000, the reported model, temperature 0.3, an output cap
    within 1..2000, and the two fixed texts before at most 100 history
    turns. *)
Theorem provider_call_shape input w :
  ((env !! "OPENAI_API_KEY" = None \/
    exists k, env !! "OPENAI_API_KEY" = Some k /\ trim k = []) /\
   calls (generateReply input w).2 = calls w) \/
  (exists k call,
     env !! "OPENAI_API_KEY" = Some k /\ trim k <> [] /\
     calls (generateReply input w).2 = calls w ++ [call] /\
     client_apiKey (call_client call) = trim k /\
     1000 <= client_timeout (call_client call) <= 120000 /\
     req_model (call_params call) = default_model /\
     req_temperature (call_params call) = Number (js "0.3") /\
     1 <= req_max_tokens (call_params call) <= 2000 /\
     take 2 (req_messages (call_params call)) =
       [{| role := system; content := SYSTEM_PROMPT |};
        {| role := system; content := FAQ_KNOWLEDGE |}] /\
     (length (req_messages (call_params call)) <= 102)%nat).
Proof.
  destruct (getOpenAiClientFromEnvOrNull env) as [openai |] eqn:H.
  - right.
    destruct (getOpenAiClientFromEnvOrNull_Some _ _ H) as (k & Hk & Hne & Hkey & Ht).
    exists k, (providerCall env openai input).
    split; [exact Hk |]. split; [exact Hne |]. split.
    { destruct (create (providerCall env openai input)) as [completion | err] eqn:Hc.
      - rewrite (generateReply_completed _ _ _ _ _ _ _ H Hc). reflexivity.
      - rewrite (generateReply_thrown _ _ _ _ _ _ _ H Hc). reflexivity. }
    split; [exact Hkey |]. split; [simpl; rewrite Ht; apply clampInt_range; lia |].
    split; [apply (getOpenAiClientFromEnvOrNull_model _ _ H) |].
    split; [reflexivity |].
    split; [simpl; apply clampInt_range; lia |].
    split; [reflexivity |].
    simpl. rewrite length_map.
    assert (Hn : 1 <= MAX_HISTORY_MESSAGES env <= 100) by (apply clampInt_range; lia).
    pose proof (proj2 (slice_last (MAX_HISTORY_MESSAGES env) (history input)
                         (proj1 Hn))).
    lia.
  - left. split; [apply getOpenAiClientFromEnvOrNull_None, H |].
    rewrite (generateReply_unconfigured _ _ _ _ _ H). reflexivity.
Qed.

(** X6: turns older than the configured limit have no influence: a history
    of at least that many turns gives the same result, and the same
    provider call, with any older turns before it. *)
Theorem older_history_ignored older recent w
    (Hfull : (Z.to_nat (MAX_HISTORY_MESSAGES env) <= length recent)%nat) :
  generateReply {| history := older ++ recent |} w
  = generateReply {| history := recent |} w.
Proof.
  assert (Hn : 1 <= MAX_HISTORY_MESSAGES env <= 100) by (apply clampInt_range; lia).
  unfold generateReply. simpl.
  rewrite (slice_suffix _ older recent (proj1 Hn) Hfull). reflexivity.
Qed.

End LLM_further.

(** ** The chat service, further *)

Lemma generateReply_model toLowerCase env create input w r w' :
  generateReply toLowerCase env create input w = (Returned r, w') ->
  meta_model (meta r) = or_default (env_trim env "OPENAI_MODEL") (js "gpt-4o-mini").
Proof.
  destruct (getOpenAiClientFromEnvOrNull env) as [openai |] eqn:H.
  - pose proof (getOpenAiClientFromEnvOrNull_model _ _ H) as Hm.
    destruct (create (providerCall env openai input)) as [completion | err] eqn:Hc.
    + rewrite (generateReply_completed _ _ _ _ _ _ _ H Hc).
      destruct (option_map trim (firstContent completion)) as [[| c s] |];
        intros Heq; injection Heq as <- _; exact Hm.
    + rewrite (generateReply_thrown _ _ _ _ _ _ _ H Hc).
      intros Heq; injection Heq as <- _; reflexivity.
  - rewrite (generateReply_unconfigured _ _ _ _ _ H).
    intros Heq; injection Heq as <- _; reflexivity.
Qed.

Lemma reply_case_calls toLowerCase env input w r w' :
  reply_case toLowerCase env input w r w' ->
  calls w' = calls w \/
  exists openai, calls w' = calls w ++ [providerCall env openai input].
Proof.
  intros Hcase. destruct Hcase; [left; reflexivity | right; eexists; reflexivity ..].
Qed.

Lemma take_rows_length {A} (n : Z) (rows : list A) :
  1 <= n -> (length (take_rows n rows) <= Z.to_nat n)%nat.
Proof.
  intros Hn. unfold take_rows.
  destruct (0 <=? n) eqn:E; [| apply Z.leb_gt in E; lia].
  rewrite length_take. lia.
Qed.

Lemma take_rows_elem_of {A} (n : Z) (rows : list A) x :
  x ∈ take_rows n rows -> x ∈ rows.
Proof.
  unfold take_rows. destruct (0 <=? n); intros H.
  - apply (subseteq_take (Z.to_nat n) rows), H.
  - apply (subseteq_drop (length rows - Z.to_nat (- n)) rows), H.
Qed.

Lemma slice_elem_of {A} (n : Z) (a : list A) x : x ∈ slice n a -> x ∈ a.
Proof. unfold slice. apply subseteq_drop. Qed.


Section Service_further.

Variable toLowerCase : jsstring -> jsstring.
Variable env : gmap string jsstring.
Variable create : ProviderCall -> outcome ChatCompletion.
Variable newId : Db -> jsstring.
Variable now : Db -> Z.
Variable orderByCreatedAt : SortOrder -> list Message -> list Message.

Local Abbreviation sendChatMessage :=
  (sendChatMessage toLowerCase env create newId now orderByCreatedAt).
Local Abbreviation postChatMessage :=
  (postChatMessage toLowerCase env create newId now orderByCreatedAt).
Local Abbreviation getChatSession := (getChatSession orderByCreatedAt).
Local Abbreviation generateReply := (generateReply toLowerCase env create).
Local Abbreviation exchange :=
  (exchange toLowerCase env create newId now orderByCreatedAt).
Local Abbreviation historyRead := (historyRead env orderByCreatedAt).
Local Abbreviation default_model :=
  (or_default (env_trim env "OPENAI_MODEL") (js "gpt-4o-mini")).

Lemma sendChatMessage_new_session input w :
  (sessionId input = None \/ exists s, sessionId input = Some s /\ trim s = []) ->
  sendChatMessage input w =
  exchange (trim (message input)) (webConversation newId now (db w))
    (add_conversation w (webConversation newId now (db w))).
Proof.
  intros Hs. unfold sendChatMessage, exchange, bind.
  assert (Hsid : option_map trim (sessionId input) = None
                 \/ option_map trim (sessionId input) = Some []).
  { destruct Hs as [-> | (s & -> & Hb)]; simpl; [left | right; rewrite Hb];
      reflexivity. }
  destruct Hsid as [-> | ->]; simpl;
    fold (webConversation newId now (db w));
    fold (add_conversation w (webConversation newId now (db w)));
    destruct (generateReply _ _) as [[r | err] w3]; reflexivity.
Qed.

Lemma sendChatMessage_stored_session input w s c :
  sessionId input = Some s -> trim s <> [] ->
  List.find (fun c => str_eqb (conv_id c) (trim s)) (conversations (db w)) = Some c ->
  sendChatMessage input w = exchange (trim (message input)) c w.
Proof.
  intros Hs Hne Hfind. unfold sendChatMessage, exchange, bind.
  rewrite Hs. simpl. destruct (trim s) as [| c0 r0] eqn:Ht; [congruence |].
  unfold findConversationById. rewrite Hfind. simpl.
  destruct (generateReply _ _) as [[r | err] w3]; reflexivity.
Qed.

Lemma reply_case_world input0 w0 r w' :
  reply_case toLowerCase env input0 w0 r w' ->
  db w' = db w0 /\ reply r <> [] /\
  provider (meta r) = js "openai" /\
  ((usedFallback (meta r) = false /\ errorCode (meta r) = None) \/
   (usedFallback (meta r) = true /\ reply r = fallbackReply /\
    exists code, errorCode (meta r) = Some code /\ code ∈ fallbackCodes)).
Proof.
  intros Hcase. destruct Hcase; simpl;
    (split; [reflexivity |]); (split; [try discriminate; try assumption |]);
    (split; [reflexivity |]).
  - right. split; [reflexivity |]. split; [reflexivity |].
    eexists. split; [reflexivity | in_list].
  - right. split; [reflexivity |]. split; [reflexivity |].
    eexists. split; [reflexivity |].
    pose proof (classifyOpenAiError_codes toLowerCase err) as Hc.
    unfold fallbackCodes. apply list_elem_of_In. apply list_elem_of_In in Hc.
    simpl in *. tauto.
  - right. split; [reflexivity |]. split; [reflexivity |].
    eexists. split; [reflexivity | in_list].
  - left. split; reflexivity.
Qed.

Lemma exchange_returns text c w1 :
  exists r w3,
    generateReply (historyRead (conv_id c)
                     (add_message w1 (messageRow newId now (db w1) (conv_id c)
                                        inbound text None)))
      (add_message w1 (messageRow newId now (db w1) (conv_id c) inbound text None))
      = (Returned r, w3) /\
    reply_case toLowerCase env
      (historyRead (conv_id c)
         (add_message w1 (messageRow newId now (db w1) (conv_id c) inbound text None)))
      (add_message w1 (messageRow newId now (db w1) (conv_id c) inbound text None))
      r w3 /\
    exchange text c w1 =
    (Returned {| send_reply := reply r; send_sessionId := conv_id c |},
     add_message w3
       (messageRow newId now (db w3) (conv_id c) outbound (reply r)
          (Some (llmMetadata (meta r))))).
Proof.
  unfold exchange.
  destruct (generateReply_cases toLowerCase env create
              (historyRead (conv_id c)
                 (add_message w1 (messageRow newId now (db w1) (conv_id c)
                                    inbound text None)))
              (add_message w1 (messageRow newId now (db w1) (conv_id c)
                                 inbound text None)))
    as (r & w3 & Hgen & Hcase).
  exists r, w3. rewrite Hgen. repeat split; assumption.
Qed.

(** How a send ends: with the InvalidSession error and the world as it
    was, for a session identifier that is not blank and not stored; in
    every other case, by an exchange on the new or the stored conversation. *)
Lemma sendChatMessage_outcome input w :
  (exists s, sessionId input = Some s /\ trim s <> [] /\ ~ stored w (trim s) /\
     sendChatMessage input w =
     (Thrown (ApiError 404 (js "invalid_session") (js "Session not found")), w))
  \/
  (exists c w1,
     ((sessionId input = None \/ exists s, sessionId input = Some s /\ trim s = [])
        /\ c = webConversation newId now (db w) /\ w1 = add_conversation w c
      \/ (exists s, sessionId input = Some s /\ trim s <> [] /\
            conv_id c = trim s /\ c ∈ conversations (db w) /\ w1 = w)) /\
     sendChatMessage input w = exchange (trim (message input)) c w1).
Proof.
  destruct (sessionId input) as [s |] eqn:Hs.
  - destruct (decide (trim s = [])) as [Hb | Hne].
    + right. eexists. eexists. split.
      * left. split; [right; exists s; split; [reflexivity | exact Hb] |].
        split; reflexivity.
      * apply sendChatMessage_new_session. right. exists s. split; assumption.
    + destruct (List.find (fun c => str_eqb (conv_id c) (trim s))
                  (conversations (db w))) as [c |] eqn:Hfind.
      * right. exists c, w. split.
        -- right. exists s. apply find_some in Hfind as Hc. destruct Hc as [Hin Hid].
           split; [reflexivity |]. split; [exact Hne |].
           split; [apply str_eqb_eq, Hid |].
           split; [apply list_elem_of_In, Hin | reflexivity].
        -- apply (sendChatMessage_stored_session input w s c Hs Hne Hfind).
      * left. exists s. split; [reflexivity |]. split; [exact Hne |].
        pose proof (find_none_not_stored _ _ Hfind) as Hns.
        split; [exact Hns |].
        replace input with {| message := message input; sessionId := Some s |}
          by (destruct input; simpl in *; congruence).
        apply sendChatMessage_unknown_session; assumption.
  - right. eexists. eexists. split.
    + left. split; [left; reflexivity |]. split; reflexivity.
    + apply sendChatMessage_new_session. left. exact Hs.
Qed.


(** X8: a send without a session identifier, or with a blank one, adds exactly
    one conversation, on channel "web" and titled "Web session", and
    returns its identifier; a send with a stored identifier adds none and
    returns that identifier, trimmed. *)
Theorem send_resolves_session input w r w'
    (Hsend : sendChatMessage input w = (Returned r, w')) :
  ((sessionId input = None \/ exists s, sessionId input = Some s /\ trim s = []) ->
   exists c,
     conversations (db w') = conversations (db w) ++ [c] /\
     conv_id c = send_sessionId r /\
     conv_channel c = js "web" /\
     conv_title c = Some (js "Web session") /\
     conv_externalConversationId c = None) /\
  (forall s, sessionId input = Some s -> trim s <> [] ->
     conversations (db w') = conversations (db w) /\
     send_sessionId r = trim s /\
     stored w (trim s)).
Proof.
  destruct (sendChatMessage_outcome input w)
    as [(s & _ & _ & _ & Hfail) | (c & w1 & Hres & Hex)];
    [rewrite Hfail in Hsend; discriminate |].
  destruct (exchange_returns (trim (message input)) c w1)
    as (r0 & w3 & _ & Hcase & Hret).
  rewrite Hex, Hret in Hsend. injection Hsend as <- <-.
  destruct (reply_case_world _ _ _ _ Hcase) as (Hdb & _). simpl in Hdb.
  simpl. rewrite Hdb.
  destruct Hres as [(Hnone & -> & ->) | (s & Hs & Hne & Hid & Hin & ->)].
  - split.
    + intros _. eexists. split; [reflexivity |]. repeat split.
    + intros s Hs Hne. destruct Hnone as [Hn | (s' & Hs' & Hb)]; congruence.
  - split.
    + intros [Hn | (s' & Hs' & Hb)]; congruence.
    + intros s' Hs' _. assert (s' = s) as -> by congruence.
      split; [reflexivity |]. split; [exact Hid |]. exists c. split; assumption.
Qed.

(** X9: a send that returns has appended exactly two messages to the store,
    both of the returned session: the inbound one holding the trimmed
    text, without metadata, then the outbound one holding the returned
    reply. The messages stored before are as they were. *)
Theorem send_appends_exchange input w r w'
    (Hsend : sendChatMessage input w = (Returned r, w')) :
  exists inb outb,
    messages (db w') = messages (db w) ++ [inb; outb] /\
    msg_conversationId inb = send_sessionId r /\
    msg_direction inb = js "inbound" /\
    msg_content inb = trim (message input) /\
    msg_metadata inb = None /\
    msg_conversationId outb = send_sessionId r /\
    msg_direction outb = js "outbound" /\
    msg_content outb = send_reply r /\
    send_reply r <> [].
Proof.
  destruct (sendChatMessage_outcome input w)
    as [(s & _ & _ & _ & Hfail) | (c & w1 & Hres & Hex)];
    [rewrite Hfail in Hsend; discriminate |].
  destruct (exchange_returns (trim (message input)) c w1)
    as (r0 & w3 & _ & Hcase & Hret).
  rewrite Hex, Hret in Hsend. injection Hsend as <- <-.
  destruct (reply_case_world _ _ _ _ Hcase) as (Hdb & Hne & _). simpl in Hdb.
  assert (Hw1 : messages (db w1) = messages (db w))
    by (destruct Hres as [(_ & _ & ->) | (s & _ & _ & _ & _ & ->)]; reflexivity).
  eexists. eexists. split.
  - simpl. rewrite Hdb. simpl. rewrite <- app_assoc, Hw1. reflexivity.
  - repeat split. exact Hne.
Qed.

(** X10: the metadata stored with a reply is an object with the one key [llm],
    holding the provider "openai", the reported model and the fallback
    flag, and an error code exactly when the reply is the fallback: one of
    the six codes. Nothing else is stored with it. *)
Theorem send_stores_safe_metadata input w r w'
    (Hsend : sendChatMessage input w = (Returned r, w')) :
  exists older outb fallback extra,
    messages (db w') = older ++ [outb] /\
    msg_metadata outb =
      Some (VObject [("llm",
        VObject ([("provider", VString (js "openai"));
                  ("model", VString default_model);
                  ("usedFallback", VBool fallback)] ++ extra))]) /\
    ((fallback = false /\ extra = []) \/
     (fallback = true /\ send_reply r = fallbackReply /\
      exists code, code ∈ fallbackCodes /\ extra = [("errorCode", VString code)])).
Proof.
  destruct (sendChatMessage_outcome input w)
    as [(s & _ & _ & _ & Hfail) | (c & w1 & Hres & Hex)];
    [rewrite Hfail in Hsend; discriminate |].
  destruct (exchange_returns (trim (message input)) c w1)
    as (r0 & w3 & Hgen & Hcase & Hret).
  rewrite Hex, Hret in Hsend. injection Hsend as <- <-.
  destruct (reply_case_world _ _ _ _ Hcase) as (_ & _ & Hprov & Hmeta).
  pose proof (generateReply_model _ _ _ _ _ _ _ Hgen) as Hmodel.
  eexists. eexists. exists (usedFallback (meta r0)).
  destruct Hmeta as [(Hf & Hc) | (Hf & Hr & code & Hc & Hin)].
  - exists []. split; [reflexivity |]. simpl. unfold llmMetadata.
    rewrite Hprov, Hmodel, Hc.
    split; [reflexivity |]. left. split; [exact Hf | reflexivity].
  - assert (Hne : code <> []).
    { intros ->. apply list_elem_of_In in Hin. simpl in Hin.
      intuition discriminate. }
    destruct code as [| c0 code]; [congruence |].
    exists [("errorCode", VString (c0 :: code))].
    split; [reflexivity |]. simpl. unfold llmMetadata.
    rewrite Hprov, Hmodel, Hc.
    split; [reflexivity |]. right. split; [exact Hf |]. split; [exact Hr |].
    exists (c0 :: code). split; [exact Hin | reflexivity].
Qed.

(** X11: surrounding whitespace never reaches the service's work: a send is the
    send of the trimmed message with the trimmed session identifier, and a
    blank session identifier is no session identifier. *)
Theorem send_sees_trimmed_input input w :
  sendChatMessage input w =
  sendChatMessage {| message := trim (message input);
                     sessionId := option_map trim (sessionId input) |} w
  /\ (forall s, sessionId input = Some s -> trim s = [] ->
      sendChatMessage input w =
      sendChatMessage {| message := message input; sessionId := None |} w).
Proof.
  split.
  - unfold sendChatMessage. simpl. rewrite trim_idempotent.
    destruct (sessionId input) as [s |]; simpl; [| reflexivity].
    rewrite trim_idempotent. reflexivity.
  - intros s Hs Hb.
    rewrite (sendChatMessage_new_session input w)
      by (right; exists s; split; assumption).
    rewrite (sendChatMessage_new_session {| message := message input; sessionId := None |} w)
      by (left; reflexivity).
    reflexivity.
Qed.

(** X12: the route stores no empty message: whatever the body, the provider and
    the store, the messages a request to [POST /chat/message] adds all have
    a non-empty content, and there are none or two of them. *)
Theorem route_stores_no_empty_message body w :
  exists added,
    messages (db (postChatMessage body w).2) = messages (db w) ++ added /\
    (added = [] \/ length added = 2%nat) /\
    forall m, m ∈ added -> msg_content m <> [].
Proof.
  unfold postChatMessage.
  destruct (trim (body_message body)) as [| c0 t0] eqn:Hmsg; simpl.
  { exists []. rewrite app_nil_r. split; [reflexivity |].
    split; [left; reflexivity |]. intros m Hm. inversion Hm. }
  set (input := match body_sessionId body with
                | Some ((_ :: _) as sessionId) =>
                  {| message := body_message body; sessionId := Some sessionId |}
                | _ => {| message := body_message body; sessionId := None |}
                end).
  assert (Hin : message input = body_message body)
    by (subst input; destruct (body_sessionId body) as [[| c s] |]; reflexivity).
  destruct (sendChatMessage_outcome input w)
    as [(s & _ & _ & _ & Hfail) | (c & w1 & Hres & Hex)].
  - rewrite Hfail. exists []. rewrite app_nil_r. split; [reflexivity |].
    split; [left; reflexivity |]. intros m Hm. inversion Hm.
  - destruct (exchange_returns (trim (message input)) c w1)
      as (r0 & w3 & _ & Hcase & Hret).
    rewrite Hex, Hret.
    destruct (reply_case_world _ _ _ _ Hcase) as (Hdb & Hne & _). simpl in Hdb.
    assert (Hw1 : messages (db w1) = messages (db w))
      by (destruct Hres as [(_ & _ & ->) | (s & _ & _ & _ & _ & ->)]; reflexivity).
    eexists. split.
    + simpl. rewrite Hdb. simpl. rewrite <- app_assoc, Hw1. reflexivity.
    + split; [right; reflexivity |].
      intros m Hm. apply list_elem_of_In in Hm. simpl in Hm.
      destruct Hm as [<- | [<- | []]]; simpl; [| exact Hne].
      rewrite Hin, Hmsg. discriminate.
Qed.


Lemma send_world input w r w'
    (Hsend : sendChatMessage input w = (Returned r, w')) :
  exists c w1 r0 w3,
    r = {| send_reply := reply r0; send_sessionId := conv_id c |} /\
    c ∈ conversations (db w1) /\
    messages (db w1) = messages (db w) /\
    calls w1 = calls w /\
    reply_case toLowerCase env
      (historyRead (conv_id c)
         (add_message w1 (messageRow newId now (db w1) (conv_id c) inbound
                            (trim (message input)) None)))
      (add_message w1 (messageRow newId now (db w1) (conv_id c) inbound
                         (trim (message input)) None))
      r0 w3 /\
    w' = add_message w3
           (messageRow newId now (db w3) (conv_id c) outbound (reply r0)
              (Some (llmMetadata (meta r0)))).
Proof.
  destruct (sendChatMessage_outcome input w)
    as [(s & _ & _ & _ & Hfail) | (c & w1 & Hres & Hex)];
    [rewrite Hfail in Hsend; discriminate |].
  destruct (exchange_returns (trim (message input)) c w1)
    as (r0 & w3 & _ & Hcase & Hret).
  rewrite Hex, Hret in Hsend. injection Hsend as <- <-.
  exists c, w1, r0, w3. split; [reflexivity |].
  split; [| split; [| split; [| split; [exact Hcase | reflexivity]]]];
    destruct Hres as [(_ & -> & ->) | (s & _ & _ & _ & Hin & ->)];
    simpl; try reflexivity; try assumption.
  apply elem_of_app. right. left.
Qed.

Hypothesis orderBy_Permutation :
  forall o rows, orderByCreatedAt o rows ≡ₚ rows.
Hypothesis orderBy_Sorted :
  forall o rows, Sorted (before o) (orderByCreatedAt o rows).

(** X14: the provider is shown only the conversation at hand: every history
    turn of the call a send makes is a message stored for the returned
    session, with the role of its direction and its content. *)
Theorem provider_sees_only_the_conversation input w r w'
    (Hsend : sendChatMessage input w = (Returned r, w')) :
  calls w' = calls w \/
  exists call,
    calls w' = calls w ++ [call] /\
    forall turn, turn ∈ drop 2 (req_messages (call_params call)) ->
      exists m, m ∈ messages (db w') /\
                msg_conversationId m = send_sessionId r /\
                role turn = toLlmRole (msg_direction m) /\
                content turn = msg_content m.
Proof.
  destruct (send_world input w r w' Hsend)
    as (c & w1 & r0 & w3 & -> & _ & Hm1 & Hc1 & Hcase & ->).
  destruct (reply_case_world _ _ _ _ Hcase) as (Hdb & _).
  destruct (reply_case_calls _ _ _ _ _ _ Hcase) as [Hcalls | (openai & Hcalls)];
    simpl in Hcalls; rewrite Hc1 in Hcalls; [left; exact Hcalls |].
  right. eexists. split; [exact Hcalls |].
  intros turn Hturn. simpl in Hturn.
  apply list_elem_of_In, in_map_iff in Hturn as (t & <- & Ht).
  apply list_elem_of_In, slice_elem_of in Ht. simpl in Ht.
  apply list_elem_of_In, in_map_iff in Ht as (m & <- & Hm).
  apply list_elem_of_In in Hm. rewrite elem_of_reverse in Hm.
  apply take_rows_elem_of in Hm. rewrite orderBy_Permutation in Hm.
  apply list_elem_of_filter in Hm as [Hcid Hm].
  exists m. split; [| split; [exact Hcid | split; reflexivity]].
  simpl. rewrite Hdb. simpl. apply elem_of_app. left. exact Hm.
Qed.

(** X15: reading the session a send returned finds it, and lists the two
    messages of that send: the trimmed text, inbound, and the returned
    reply, outbound. When the outbound message has a later creation time
    than every message stored before it, the session's reply is the reply
    the send returned. *)
Theorem sent_then_read input w r w'
    (Hsend : sendChatMessage input w = (Returned r, w')) :
  exists ms reply,
    getChatSession (send_sessionId r) w' =
    (Returned {| session_reply := reply;
                 session_sessionId := send_sessionId r;
                 session_messages := map toDto ms |}, w') /\
    (exists inb outb,
       inb ∈ ms /\ outb ∈ ms /\
       msg_direction inb = js "inbound" /\
       msg_content inb = trim (message input) /\
       msg_direction outb = js "outbound" /\
       msg_content outb = send_reply r) /\
    ((forall older last, messages (db w') = older ++ [last] ->
        forall m, m ∈ older -> msg_createdAt m < msg_createdAt last) ->
     reply = send_reply r).
Proof.
  destruct (send_world input w r w' Hsend)
    as (c & w1 & r0 & w3 & -> & Hc & Hm1 & _ & Hcase & ->).
  destruct (reply_case_world _ _ _ _ Hcase) as (Hdb & _). simpl in Hdb.
  set (inb := messageRow newId now (db w1) (conv_id c) inbound
                (trim (message input)) None) in *.
  set (outb := messageRow newId now (db w3) (conv_id c) outbound (reply r0)
                 (Some (llmMetadata (meta r0)))).
  set (w' := add_message w3 outb).
  assert (Hmsgs : messages (db w') = (messages (db w1) ++ [inb]) ++ [outb])
    by (simpl; rewrite Hdb; reflexivity).
  assert (Hstored : stored w' (conv_id c)).
  { exists c. split; [| reflexivity]. simpl. rewrite Hdb. exact Hc. }
  destruct (stored_find _ _ Hstored) as (c' & Hfind & Hid).
  set (rows := whereConversationId (conv_id c) (messages (db w'))).
  set (ms := orderByCreatedAt asc rows).
  assert (Hinb : inb ∈ ms).
  { subst ms. rewrite orderBy_Permutation. subst rows.
    apply list_elem_of_filter. split; [reflexivity |].
    rewrite Hmsgs. apply elem_of_app. left. apply elem_of_app. right. left. }
  assert (Houtb : outb ∈ ms).
  { subst ms. rewrite orderBy_Permutation. subst rows.
    apply list_elem_of_filter. split; [reflexivity |].
    rewrite Hmsgs. apply elem_of_app. right. left. }
  exists ms. eexists. split; [| split].
  - unfold getChatSession, bind, findConversationById. cbn [send_sessionId].
    rewrite Hfind. unfold listMessagesByConversationId, message_findMany, ret.
    rewrite Hid. fold rows. fold ms. reflexivity.
  - exists inb, outb. repeat split; assumption.
  - intros Hclock. cbn [send_reply].
    assert (Hsorted : StronglySorted (before asc) ms)
      by apply (Sorted_StronglySorted (before asc)), orderBy_Sorted.
    pose proof (find_last isOutbound ms) as Hlast.
    destruct (List.find isOutbound (reverse ms)) as [m |].
    + destruct Hlast as (older & newer & Hms & Hm & Hnewer).
      assert (Hmin : m ∈ ms) by (rewrite Hms; apply elem_of_app; right; left).
      subst ms. rewrite orderBy_Permutation in Hmin. subst rows.
      apply list_elem_of_filter in Hmin as [_ Hmin].
      rewrite Hmsgs in Hmin. apply elem_of_app in Hmin as [Hold | Hlastm].
      * exfalso. pose proof (Hclock _ _ Hmsgs m Hold) as Hlt.
        rewrite Hms in Houtb, Hsorted.
        apply elem_of_app in Houtb as [Ho | Ho].
        -- pose proof (StronglySorted_app_1_elem_of _ _ _ outb m Hsorted Ho
                         ltac:(left)) as Hle.
           unfold before in Hle. lia.
        -- apply elem_of_cons in Ho as [Ho | Ho].
           ++ rewrite <- Ho in Hlt. exact (Z.lt_irrefl _ Hlt).
           ++ pose proof (Hnewer _ Ho) as Hno. discriminate.
      * apply list_elem_of_singleton in Hlastm. subst m. reflexivity.
    + exfalso. pose proof (Hlast outb Houtb) as Hno. discriminate.
Qed.

End Service_further.

(** ** The error handler *)

Lemma errorHandler_ApiError statusCode code message st :
  errorHandler (ApiError statusCode code message) st =
  Returned {| reply_status := VNumber (Finite statusCode 0);
              reply_error := VString code;
              reply_logged := None |}.
Proof. reflexivity. Qed.

Section Route_errors.

Variable toLowerCase : jsstring -> jsstring.
Variable env : gmap string jsstring.
Variable create : ProviderCall -> outcome ChatCompletion.
Variable newId : Db -> jsstring.
Variable now : Db -> Z.
Variable orderByCreatedAt : SortOrder -> list Message -> list Message.

Local Abbreviation postChatMessage :=
  (postChatMessage toLowerCase env create newId now orderByCreatedAt).
Local Abbreviation getChat := (getChat orderByCreatedAt).


End Route_errors.


(** ** The frontend's proxy *)

Section Proxy_properties.

Variable BACKEND_URL : option jsstring.
Variable JSON_stringify : json -> jsstring.
Variable JSON_parse : jsstring -> outcome json.
Variable fetch : UpstreamRequest -> outcome UpstreamResponse.

Local Abbreviation POST := (POST BACKEND_URL JSON_stringify JSON_parse fetch).

Lemma respond_fixed code status :
  200 <= status <= 599 -> status <> 204 -> status <> 205 -> status <> 304 ->
  respond (Some (error_body code)) status =
  Returned {| proxy_status := status; proxy_data := Some (error_body code) |}.
Proof.
  intros Hs H1 H2 H3. unfold respond.
  destruct (status <? 200) eqn:E1; [apply Z.ltb_lt in E1; lia |].
  destruct (599 <? status) eqn:E2; [apply Z.ltb_lt in E2; lia |].
  destruct (status =? 204) eqn:E3; [apply Z.eqb_eq in E3; lia |].
  destruct (status =? 205) eqn:E4; [apply Z.eqb_eq in E4; lia |].
  destruct (status =? 304) eqn:E5; [apply Z.eqb_eq in E5; lia |].
  reflexivity.
Qed.

(** X18: the proxy turns to the backend at most once, and only for a body that
    is an object with a string [message] that is not blank: then with one
    POST of the body, serialised again, to [/chat/message] under the
    configured base address. *)
Theorem proxy_calls_backend_once request_json :
  (POST request_json).2 = [] \/
  exists body message,
    request_json = Returned body /\
    json_get body "message" = Some (JString message) /\
    trim message <> [] /\
    (POST request_json).2 =
      [{| up_url := match BACKEND_URL with
                    | Some url => url
                    | None => js "http://localhost:3001"
                    end ++ js "/chat/message";
          up_method := js "POST";
          up_contentType := js "application/json";
          up_body := JSON_stringify body |}].
Proof.
  destruct request_json as [body | err]; [| left; reflexivity].
  destruct (json_get body "message") as [[| | | message | |] |] eqn:Hm;
    try (left; unfold POST; destruct body; try rewrite Hm; reflexivity).
  destruct (trim message) as [| c t] eqn:Ht.
  - left. unfold POST. destruct body; try reflexivity; rewrite Hm, Ht; reflexivity.
  - right. exists body, message. split; [reflexivity |]. split; [exact Hm |].
    split; [rewrite Ht; discriminate |].
    unfold POST. destruct body; try discriminate. rewrite Hm, Ht. reflexivity.
Qed.

(** X19: the proxy answers every request but one whose body is the JSON value
    [null], on which it throws. Its answer has status 400 (no backend call
    made), 502, or the status the backend answered with; and it is 400
    with "empty_message" whenever the message is missing, not a string, or
    blank. *)
Theorem proxy_answers request_json :
  (request_json = Returned JNull /\ exists err, (POST request_json).1 = Thrown err) \/
  (request_json <> Returned JNull /\
   exists response,
     (POST request_json).1 = Returned response /\
     ((proxy_status response = 400 /\ (POST request_json).2 = []) \/
      (proxy_status response = 502 /\
       proxy_data response = Some (error_body "backend_unreachable")) \/
      (exists request upstream,
         fetch request = Returned upstream /\
         proxy_status response = up_status upstream)) /\
     (forall body,
        request_json = Returned body ->
        (forall message, json_get body "message" = Some (JString message) ->
                         trim message = []) ->
        response = {| proxy_status := 400;
                      proxy_data := Some (error_body "empty_message") |})).
Proof.
  destruct request_json as [body | err].
  2:{ right. split; [discriminate |]. eexists. split; [reflexivity |].
      split; [left; split; reflexivity | intros body Hb; discriminate]. }
  assert (Hnull : body = JNull \/ body <> JNull)
    by (destruct body; [left; reflexivity | right; discriminate ..]).
  destruct Hnull as [-> | Hnn].
  { left. split; [reflexivity |]. eexists. reflexivity. }
  right. split; [congruence |].
  assert (Hpost : POST (Returned body) =
    match json_get body "message" with
    | Some (JString message) =>
      if (length (trim message) =? 0)%nat then
        (respond (Some (error_body "empty_message")) 400, [])
      else
        let request :=
          {| up_url := match BACKEND_URL with
                       | Some url => url
                       | None => js "http://localhost:3001"
                       end ++ js "/chat/message";
             up_method := js "POST";
             up_contentType := js "application/json";
             up_body := JSON_stringify body |} in
        (match fetch request with
         | Thrown _ => respond (Some (error_body "backend_unreachable")) 502
         | Returned upstream =>
           match up_text upstream with
           | Thrown _ => respond (Some (error_body "backend_unreachable")) 502
           | Returned text =>
             match respond
                     match text with
                     | [] => None
                     | _ => match JSON_parse text with
                            | Returned parsed => Some parsed
                            | Thrown _ => Some (error_body "upstream_invalid_json")
                            end
                     end (up_status upstream) with
             | Returned response => Returned response
             | Thrown _ => respond (Some (error_body "backend_unreachable")) 502
             end
           end
         end, [request])
    | _ => (respond (Some (error_body "empty_message")) 400, [])
    end).
  { unfold POST. destruct body; try reflexivity. congruence. }
  rewrite Hpost. clear Hpost.
  destruct (json_get body "message") as [[| | | message | |] |] eqn:Hm;
    try (eexists; split; [reflexivity |];
         split; [left; split; reflexivity | intros body0 Hb Hblank; reflexivity]).
  destruct (trim message) as [| c t] eqn:Ht; simpl length; cbn [Nat.eqb].
  { eexists. split; [reflexivity |].
    split; [left; split; reflexivity | intros body0 Hb Hblank; reflexivity]. }
  assert (Hnb : forall body0, Returned (A:=json) body = Returned body0 ->
            (forall m, json_get body0 "message" = Some (JString m) -> trim m = []) ->
            False).
  { intros body0 Hb Hblank. injection Hb as <-.
    specialize (Hblank message Hm). congruence. }
  cbv zeta.
  destruct (fetch _) as [upstream | e] eqn:Hfetch; cbn [fst snd].
  2:{ eexists. split; [reflexivity |].
      split; [right; left; split; reflexivity |].
      intros body0 Hb Hblank. destruct (Hnb body0 Hb Hblank). }
  destruct (up_text upstream) as [text | e].
  2:{ eexists. split; [reflexivity |].
      split; [right; left; split; reflexivity |].
      intros body0 Hb Hblank. destruct (Hnb body0 Hb Hblank). }
  destruct (respond _ (up_status upstream)) as [response | e] eqn:Hresp.
  2:{ eexists. split; [reflexivity |].
      split; [right; left; split; reflexivity |].
      intros body0 Hb Hblank. destruct (Hnb body0 Hb Hblank). }
  exists response. split; [reflexivity |]. split.
  - right. right. eexists. exists upstream. split; [exact Hfetch |].
    unfold respond in Hresp.
    destruct ((up_status upstream <? 200) || (599 <? up_status upstream));
      [discriminate |].
    destruct (_ && _); [discriminate |].
    injection Hresp as <-. reflexivity.
  - intros body0 Hb Hblank. destruct (Hnb body0 Hb Hblank).
Qed.

End Proxy_properties.

(** ** A send, end to end *)

Section Send_end_to_end.

Variable toLowerCase : jsstring -> jsstring.
Variable env : gmap string jsstring.
Variable create : ProviderCall -> outcome ChatCompletion.
Variable newId : Db -> jsstring.
Variable now : Db -> Z.
Variable orderByCreatedAt : SortOrder -> list Message -> list Message.

Local Abbreviation sendChatMessage :=
  (sendChatMessage toLowerCase env create newId now orderByCreatedAt).

Lemma send_reply_run input w r w'
    (Hsend : sendChatMessage input w = (Returned r, w')) :
  exists input0 w2 r0 w3,
    generateReply toLowerCase env create input0 w2 = (Returned r0, w3) /\
    calls w2 = calls w /\
    send_reply r = reply r0 /\
    calls w' = calls w3.
Proof.
  destruct (sendChatMessage_outcome toLowerCase env create newId now
              orderByCreatedAt input w)
    as [(s & _ & _ & _ & Hfail) | (c & w1 & Hres & Hex)];
    [rewrite Hfail in Hsend; discriminate |].
  destruct (exchange_returns toLowerCase env create newId now orderByCreatedAt
              (trim (message input)) c w1) as (r0 & w3 & Hgen & _ & Hret).
  rewrite Hex, Hret in Hsend. injection Hsend as <- <-.
  eexists. eexists. exists r0, w3. split; [exact Hgen |].
  split; [| split; reflexivity].
  destruct Hres as [(_ & _ & ->) | (s & _ & _ & _ & _ & ->)]; reflexivity.
Qed.

(** X20: with no credential configured, a send that returns gives the fixed
    fallback reply and has made no provider call. *)
Theorem send_without_key input w r w'
    (Hkey : env !! "OPENAI_API_KEY" = None \/
            exists k, env !! "OPENAI_API_KEY" = Some k /\ trim k = [])
    (Hsend : sendChatMessage input w = (Returned r, w')) :
  send_reply r = fallbackReply /\ calls w' = calls w.
Proof.
  destruct (send_reply_run input w r w' Hsend)
    as (input0 & w2 & r0 & w3 & Hgen & Hc2 & Hr & Hc3).
  apply getOpenAiClientFromEnvOrNull_None in Hkey.
  rewrite (generateReply_unconfigured _ _ _ _ _ Hkey) in Hgen.
  injection Hgen as <- <-. rewrite Hr, Hc3, Hc2. split; reflexivity.
Qed.

(** X21: with a credential configured and a provider that answers every
    call with a completion whose first content is not blank, a send that
    returns gives that content, trimmed, and has made exactly one provider
    call. *)
Theorem send_returns_provider_answer input w r w' k completion content
    (Hkey : env !! "OPENAI_API_KEY" = Some k) (Hk : trim k <> [])
    (Hanswer : forall call, create call = Returned completion)
    (Hcontent : firstContent completion = Some content)
    (Htext : trim content <> [])
    (Hsend : sendChatMessage input w = (Returned r, w')) :
  send_reply r = trim content /\ exists call, calls w' = calls w ++ [call].
Proof.
  destruct (send_reply_run input w r w' Hsend)
    as (input0 & w2 & r0 & w3 & Hgen & Hc2 & Hr & Hc3).
  destruct (getOpenAiClientFromEnvOrNull env) as [openai |] eqn:Hclient.
  2:{ apply getOpenAiClientFromEnvOrNull_None in Hclient.
      destruct Hclient as [Hn | (k' & Hk' & Hb)]; congruence. }
  rewrite (generateReply_completed _ _ _ _ _ _ _ Hclient (Hanswer _)) in Hgen.
  rewrite Hcontent in Hgen. simpl in Hgen.
  destruct (trim content) as [| c0 t0] eqn:Ht; [congruence |].
  injection Hgen as <- <-. rewrite Hr, Hc3. simpl. rewrite Hc2.
  split; [reflexivity |]. eexists. reflexivity.
Qed.

End Send_end_to_end.

(** ** Decimal settings *)

Lemma digit_range d : 0 <= d <= 9 -> (0x30 <= digit d <= 0x39)%N.
Proof. unfold digit. lia. Qed.

Lemma padded_chars k n : Forall (fun c => (0x30 <= c <= 0x39)%N) (padded k n).
Proof.
  revert n. induction k as [| k IH]; intros n; simpl; [constructor |].
  apply Forall_app. split; [apply IH |].
  constructor; [| constructor]. apply digit_range. Z.div_mod_to_equations; lia.
Qed.

Lemma digit_char_not_space c : (0x30 <= c <= 0x39)%N -> isWhiteSpace c = false.
Proof.
  intros Hc. unfold isWhiteSpace.
  repeat match goal with
         | |- context [(c =? ?k)%N] =>
           destruct (N.eqb_spec c k); [lia |]
         end.
  destruct (N.leb_spec 0x2000 c); [lia |]. reflexivity.
Qed.

Lemma trim_digits s :
  Forall (fun c => (0x30 <= c <= 0x39)%N) s -> trim s = s.
Proof.
  intros Hs. unfold trim, trimEnd.
  assert (Hfix : forall t, Forall (fun c => (0x30 <= c <= 0x39)%N) t ->
                           trimStart t = t).
  { intros t Ht. apply trimStart_fixed. destruct Ht as [| c t Hc _]; [exact I |].
    apply digit_char_not_space, Hc. }
  rewrite (Hfix s Hs). rewrite Hfix; [apply rev_involutive |].
  apply Forall_forall. intros c Hc. apply list_elem_of_In, in_rev in Hc.
  rewrite Forall_forall in Hs. apply Hs, list_elem_of_In, Hc.
Qed.

Lemma digits_padded k n :
  0 <= n < 10 ^ Z.of_nat k ->
  exists ds,
    length ds = k /\
    (forall acc, fold_left (fun a d => a * 10 + d) ds acc = acc * 10 ^ Z.of_nat k + n) /\
    forall rest,
      digits decimalDigit (padded k n ++ rest) =
      (ds ++ (digits decimalDigit rest).1, (digits decimalDigit rest).2).
Proof.
  revert n. induction k as [| k IH]; intros n Hn.
  - exists []. split; [reflexivity |]. split.
    + intros acc. simpl in *. lia.
    + intros rest. simpl. destruct (digits decimalDigit rest). reflexivity.
  - assert (Hpow : 10 ^ Z.of_nat (S k) = 10 * 10 ^ Z.of_nat k)
      by (rewrite Nat2Z.inj_succ, Z.pow_succ_r; lia).
    rewrite Hpow in *.
    destruct (IH (n / 10)) as (ds & Hlen & Hval & Hdig);
      [Z.div_mod_to_equations; lia |].
    exists (ds ++ [n mod 10]). split; [rewrite length_app; simpl; lia |]. split.
    + intros acc. rewrite fold_left_app, Hval. simpl.
      Z.div_mod_to_equations; lia.
    + intros rest. cbn [padded]. rewrite <- !app_assoc. rewrite Hdig.
      cbn [app digits]. rewrite decimalDigit_digit by (Z.div_mod_to_equations; lia).
      destruct (digits decimalDigit rest). reflexivity.
Qed.

Lemma roundToDouble_integer n :
  0 <= n < 2 ^ 53 ->
  exists m e, roundToDouble false n 1 = Finite m e /\ trunc m e = n.
Proof.
  intros Hn.
  destruct (n =? 0) eqn:E0.
  { apply Z.eqb_eq in E0. subst n. exists 0, 0. split; reflexivity. }
  assert (Hn0 : n <> 0) by (apply Z.eqb_neq, E0).
  assert (Hpos : 0 < n) by lia.
  set (l := Z.log2 n).
  assert (Hl0 : 0 <= l) by apply Z.log2_nonneg.
  assert (Hl : l < 53) by (apply Z.log2_lt_pow2; lia).
  destruct (Z.log2_spec n Hpos) as [Hlo Hhi]. fold l in Hlo, Hhi.
  assert (Hbin : (let (a, b) := scale2 n 1 l in if b <=? a then l else l - 1) = l).
  { unfold scale2. destruct (0 <=? l) eqn:El; [| apply Z.leb_gt in El; lia].
    destruct (1 * 2 ^ l <=? n) eqn:Eb; [reflexivity | apply Z.leb_gt in Eb; lia]. }
  assert (Hsc : scale2 n 1 (l - 52) = (n * 2 ^ (52 - l), 1)).
  { unfold scale2. destruct (0 <=? l - 52) eqn:Es.
    - apply Z.leb_le in Es. replace (l - 52) with 0 by lia.
      replace (52 - l) with 0 by lia. f_equal. change (2 ^ 0) with 1. lia.
    - replace (- (l - 52)) with (52 - l) by lia. reflexivity. }
  assert (Hq : 0 < n * 2 ^ (52 - l))
    by (apply Z.mul_pos_pos; [lia |]; apply Z.pow_pos_nonneg; lia).
  assert (Hlog : Z.log2 (n * 2 ^ (52 - l)) = 52).
  { rewrite Z.log2_mul_pow2 by lia. fold l. lia. }
  unfold roundToDouble. rewrite E0. change (Z.log2 1) with 0.
  rewrite Z.sub_0_r. fold l. cbv zeta. rewrite !Hbin.
  replace (Z.max (l - 52) (-1074)) with (l - 52) by lia.
  rewrite Hsc. rewrite Z.div_1_r, Z.mod_1_r. change (2 * 0 <? 1) with true.
  cbv iota.
  destruct (n * 2 ^ (52 - l) =? 0) eqn:Ez; [apply Z.eqb_eq in Ez; lia |].
  rewrite Hlog.
  destruct (1024 <=? l - 52 + 52) eqn:Eo; [apply Z.leb_le in Eo; lia |].
  exists (n * 2 ^ (52 - l)), (l - 52). split; [reflexivity |].
  unfold trunc. destruct (0 <=? l - 52) eqn:Es.
  - apply Z.leb_le in Es. replace (l - 52) with 0 by lia.
    replace (52 - l) with 0 by lia. change (2 ^ 0) with 1. lia.
  - replace (- (l - 52)) with (52 - l) by lia.
    apply Z.quot_mul. apply Z.pow_nonzero; lia.
Qed.

Lemma NonDecimalIntegerLiteral_digits s :
  Forall (fun c => (0x30 <= c <= 0x39)%N) s -> NonDecimalIntegerLiteral s = None.
Proof.
  intros Hs. destruct s as [| z [| p r]]; try reflexivity.
  apply Forall_cons in Hs as [_ Hs]. apply Forall_cons in Hs as [Hp _].
  unfold NonDecimalIntegerLiteral.
  destruct (z =? 0x30)%N; [| reflexivity].
  repeat match goal with
         | |- context [(p =? ?k)%N] =>
           destruct (N.eqb_spec p k); [lia |]
         end.
  reflexivity.
Qed.

Lemma Number_decimal k n :
  (0 < k)%nat -> 0 <= n < 10 ^ Z.of_nat k -> n < 2 ^ 53 ->
  exists m e, Number (padded k n) = Finite m e /\ trunc m e = n.
Proof.
  intros Hk Hn H53.
  pose proof (padded_chars k n) as Hchars.
  destruct (digits_padded k n Hn) as (ds & Hlen & Hval & Hdig).
  specialize (Hdig []). rewrite app_nil_r in Hdig. simpl in Hdig.
  rewrite app_nil_r in Hdig.
  unfold Number. rewrite (trim_digits _ Hchars).
  rewrite (NonDecimalIntegerLiteral_digits _ Hchars).
  destruct (padded k n) as [| c s] eqn:Hp.
  { destruct k; [lia |]. simpl in Hp. destruct (padded k (n / 10)); discriminate. }
  apply Forall_cons in Hchars as [Hc _].
  unfold StrDecimalLiteral, signOf.
  destruct (N.eqb_spec c 0x2D); [lia |].
  destruct (N.eqb_spec c 0x2B); [lia |].
  assert (Hinf : str_eqb (c :: s) (js "Infinity") = false).
  { apply str_eqb_neq. intros Heq. injection Heq as Hc' _. lia. }
  rewrite Hinf, Hdig. rewrite app_nil_r.
  destruct ds as [| d ds']; [simpl in Hlen; lia |].
  cbn [exponentPart length Z.of_nat]. rewrite Z.sub_0_r.
  cbn [Z.leb Z.compare]. unfold valueOf. rewrite Hval.
  replace ((0 * 10 ^ Z.of_nat k + n) * 10 ^ 0) with n by (rewrite Z.pow_0_r; lia).
  apply roundToDouble_integer. lia.
Qed.

(** X22: a setting written as a decimal integer below 2^53, with or without
    leading zeros, is taken at its value: [clampInt] gives that integer,
    clamped into the range. *)
Theorem decimal_setting k n min max fallback
    (Hk : (0 < k)%nat) (Hn : 0 <= n < 10 ^ Z.of_nat k) (H53 : n < 2 ^ 53) :
  clampInt (Some (padded k n)) min max fallback = Z.max min (Z.min max n).
Proof.
  destruct (Number_decimal k n Hk Hn H53) as (m & e & HN & Ht).
  rewrite clampInt_nonblank.
  - rewrite HN, Ht. reflexivity.
  - rewrite (trim_digits _ (padded_chars k n)).
    destruct k; [lia |]. simpl. destruct (padded k (n / 10)); discriminate.
Qed.


(** ** The frontend's history proxy *)

Section HistoryProxy_properties.

Variable BACKEND_URL : option jsstring.
Variable JSON_parse : jsstring -> outcome json.
Variable encodeURIComponent : jsstring -> outcome jsstring.
Variable fetch : HistoryRequest -> outcome UpstreamResponse.

Local Abbreviation GET := (GET BACKEND_URL JSON_parse encodeURIComponent fetch).

Lemma GET_nonblank sessionId :
  trim sessionId <> [] ->
  GET sessionId =
  match encodeURIComponent sessionId with
  | Thrown _ => (respond (Some (error_body "backend_unreachable")) 502, [])
  | Returned encoded =>
    let request :=
      {| hist_url := match BACKEND_URL with
                     | Some url => url
                     | None => js "http://localhost:3001"
                     end ++ js "/chat/" ++ encoded;
         hist_method := js "GET" |} in
    (match fetch request with
     | Thrown _ => respond (Some (error_body "backend_unreachable")) 502
     | Returned upstream =>
       match up_text upstream with
       | Thrown _ => respond (Some (error_body "backend_unreachable")) 502
       | Returned text =>
         match respond
                 match text with
                 | [] => None
                 | _ => match JSON_parse text with
                        | Returned parsed => Some parsed
                        | Thrown _ => Some (error_body "upstream_invalid_json")
                        end
                 end (up_status upstream) with
         | Returned response => Returned response
         | Thrown _ => respond (Some (error_body "backend_unreachable")) 502
         end
       end
     end, [request])
  end.
Proof.
  intros Hid. unfold GET.
  destruct sessionId as [| c s]; [destruct Hid; reflexivity |].
  destruct (trim (c :: s)) as [| c' t]; [destruct Hid; reflexivity |].
  reflexivity.
Qed.

(** X23: the history proxy answers every request. For a blank session
    identifier the answer is 400 "invalid_session" and the backend is not
    asked. Otherwise the backend is asked at most once, with a GET of
    [/chat/] and the encoded identifier under the configured base address,
    and the answer is 502 "backend_unreachable" or carries the status the
    backend answered with. *)
Theorem history_proxy_answers sessionId :
  exists response,
    (GET sessionId).1 = Returned response /\
    ((trim sessionId = [] /\
      response = {| proxy_status := 400;
                    proxy_data := Some (error_body "invalid_session") |} /\
      (GET sessionId).2 = []) \/
     (trim sessionId <> [] /\
      ((GET sessionId).2 = [] \/
       exists encoded,
         encodeURIComponent sessionId = Returned encoded /\
         (GET sessionId).2 =
           [{| hist_url := match BACKEND_URL with
                           | Some url => url
                           | None => js "http://localhost:3001"
                           end ++ js "/chat/" ++ encoded;
               hist_method := js "GET" |}]) /\
      (response = {| proxy_status := 502;
                     proxy_data := Some (error_body "backend_unreachable") |} \/
       exists request upstream,
         (GET sessionId).2 = [request] /\
         fetch request = Returned upstream /\
         proxy_status response = up_status upstream))).
Proof.
  destruct (trim sessionId) as [| c t] eqn:Ht.
  - eexists. split; [| left; split; [reflexivity |]; split; [reflexivity |]].
    + unfold GET. rewrite Ht. rewrite orb_true_r. reflexivity.
    + unfold GET. rewrite Ht. rewrite orb_true_r. reflexivity.
  - assert (Hid : trim sessionId <> []) by (rewrite Ht; discriminate).
    rewrite (GET_nonblank sessionId Hid).
    destruct (encodeURIComponent sessionId) as [encoded | e].
    2:{ eexists. split; [reflexivity |]. right. split; [discriminate |].
        split; [left; reflexivity | left; reflexivity]. }
    cbv zeta. cbn [fst snd].
    destruct (fetch _) as [upstream | e] eqn:Hfetch.
    2:{ eexists. split; [reflexivity |]. right. split; [discriminate |].
        split; [right; exists encoded; split; reflexivity | left; reflexivity]. }
    destruct (up_text upstream) as [text | e].
    2:{ eexists. split; [reflexivity |]. right. split; [discriminate |].
        split; [right; exists encoded; split; reflexivity | left; reflexivity]. }
    destruct (respond _ (up_status upstream)) as [response | e] eqn:Hresp.
    2:{ eexists. split; [reflexivity |]. right. split; [discriminate |].
        split; [right; exists encoded; split; reflexivity | left; reflexivity]. }
    exists response. split; [reflexivity |]. right. split; [discriminate |].
    split; [right; exists encoded; split; reflexivity |].
    right. eexists. exists upstream. split; [reflexivity |].
    split; [exact Hfetch |].
    unfold respond in Hresp.
    destruct ((up_status upstream <? 200) || (599 <? up_status upstream));
      [discriminate |].
    destruct (_ && _); [discriminate |].
    injection Hresp as <-. reflexivity.
Qed.

(** X24: what the backend answers about a session is passed on unchanged: for
    an answer with a status from 200 to 599 other than 204, 205 and 304, the
    history proxy answers with that status and with the parsed text; with no
    data for an empty text, and with "upstream_invalid_json" for a text that
    does not parse. *)
Theorem history_proxy_relays sessionId encoded upstream text
    (Hid : trim sessionId <> [])
    (Henc : encodeURIComponent sessionId = Returned encoded)
    (Hfetch : fetch {| hist_url := match BACKEND_URL with
                                   | Some url => url
                                   | None => js "http://localhost:3001"
                                   end ++ js "/chat/" ++ encoded;
                       hist_method := js "GET" |} = Returned upstream)
    (Htext : up_text upstream = Returned text)
    (Hstatus : 200 <= up_status upstream <= 599)
    (Hbody : up_status upstream <> 204 /\ up_status upstream <> 205 /\
             up_status upstream <> 304) :
  exists response,
    (GET sessionId).1 = Returned response /\
    proxy_status response = up_status upstream /\
    (text = [] -> proxy_data response = None) /\
    (forall parsed, text <> [] -> JSON_parse text = Returned parsed ->
                    proxy_data response = Some parsed) /\
    (forall e, text <> [] -> JSON_parse text = Thrown e ->
               proxy_data response = Some (error_body "upstream_invalid_json")).
Proof.
  rewrite (GET_nonblank sessionId Hid), Henc. cbv zeta. cbn [fst].
  rewrite Hfetch, Htext. unfold respond.
  destruct (up_status upstream <? 200) eqn:E1; [apply Z.ltb_lt in E1; lia |].
  destruct (599 <? up_status upstream) eqn:E2; [apply Z.ltb_lt in E2; lia |].
  destruct (up_status upstream =? 204) eqn:E3; [apply Z.eqb_eq in E3; lia |].
  destruct (up_status upstream =? 205) eqn:E4; [apply Z.eqb_eq in E4; lia |].
  destruct (up_status upstream =? 304) eqn:E5; [apply Z.eqb_eq in E5; lia |].
  cbn [orb andb]. eexists. split; [reflexivity |]. cbn [proxy_status proxy_data].
  split; [reflexivity |]. split; [intros ->; reflexivity |]. split.
  - intros parsed Hne Hp. destruct text; [destruct Hne; reflexivity |].
    rewrite Hp. reflexivity.
  - intros e Hne Hp. destruct text; [destruct Hne; reflexivity |].
    rewrite Hp. reflexivity.
Qed.

End HistoryProxy_properties.

Section Proxy_relay.

Variable BACKEND_URL : option jsstring.
Variable JSON_stringify : json -> jsstring.
Variable JSON_parse : jsstring -> outcome json.
Variable fetch : UpstreamRequest -> outcome UpstreamResponse.

Local Abbreviation POST := (POST BACKEND_URL JSON_stringify JSON_parse fetch).

(** X25: what the backend answers to a message is passed on unchanged: for a
    body with a string [message] that is not blank, and an answer with a
    status from 200 to 599 other than 204, 205 and 304, the proxy answers
    with that status and with the parsed text; with no data for an empty
    text, and with "upstream_invalid_json" for a text that does not parse. *)
Theorem proxy_relays body message upstream text
    (Hmessage : json_get body "message" = Some (JString message))
    (Hnonblank : trim message <> [])
    (Hfetch : fetch {| up_url := match BACKEND_URL with
                                 | Some url => url
                                 | None => js "http://localhost:3001"
                                 end ++ js "/chat/message";
                       up_method := js "POST";
                       up_contentType := js "application/json";
                       up_body := JSON_stringify body |} = Returned upstream)
    (Htext : up_text upstream = Returned text)
    (Hstatus : 200 <= up_status upstream <= 599)
    (Hbody : up_status upstream <> 204 /\ up_status upstream <> 205 /\
             up_status upstream <> 304) :
  exists response,
    (POST (Returned body)).1 = Returned response /\
    proxy_status response = up_status upstream /\
    (text = [] -> proxy_data response = None) /\
    (forall parsed, text <> [] -> JSON_parse text = Returned parsed ->
                    proxy_data response = Some parsed) /\
    (forall e, text <> [] -> JSON_parse text = Thrown e ->
               proxy_data response = Some (error_body "upstream_invalid_json")).
Proof.
  unfold POST. destruct body; try discriminate.
  rewrite Hmessage. destruct (trim message) as [| c t]; [destruct Hnonblank; reflexivity |].
  cbn [length Nat.eqb]. cbv zeta. cbn [fst].
  rewrite Hfetch, Htext. unfold respond.
  destruct (up_status upstream <? 200) eqn:E1; [apply Z.ltb_lt in E1; lia |].
  destruct (599 <? up_status upstream) eqn:E2; [apply Z.ltb_lt in E2; lia |].
  destruct (up_status upstream =? 204) eqn:E3; [apply Z.eqb_eq in E3; lia |].
  destruct (up_status upstream =? 205) eqn:E4; [apply Z.eqb_eq in E4; lia |].
  destruct (up_status upstream =? 304) eqn:E5; [apply Z.eqb_eq in E5; lia |].
  cbn [orb andb]. eexists. split; [reflexivity |]. cbn [proxy_status proxy_data].
  split; [reflexivity |]. split; [intros ->; reflexivity |]. split.
  - intros parsed Hne Hp. destruct text; [destruct Hne; reflexivity |].
    rewrite Hp. reflexivity.
  - intros e Hne Hp. destruct text; [destruct Hne; reflexivity |].
    rewrite Hp. reflexivity.
Qed.

End Proxy_relay.

(** ** Instances of the further properties *)

Lemma world0_fresh : ~ stored world0 (sample_newId (db world0)).
Proof. intros (c & Hin & _). inversion Hin. Qed.

Lemma sample_send_returns : sample_send = (Returned sample_sent, sample_send.2).
Proof. vm_compute. reflexivity. Qed.

Lemma sample_world_distinct a b :
  a ∈ whereConversationId (js "c1") (messages (db sample_world)) ->
  b ∈ whereConversationId (js "c1") (messages (db sample_world)) ->
  msg_createdAt a = msg_createdAt b -> a = b.
Proof.
  intros Ha Hb. apply list_elem_of_In in Ha. apply list_elem_of_In in Hb.
  change (whereConversationId (js "c1") (messages (db sample_world)))
    with (messages (db sample_world)) in Ha, Hb.
  simpl in Ha, Hb.
  destruct Ha as [<- | [<- | [<- | [<- | []]]]];
    destruct Hb as [<- | [<- | [<- | [<- | []]]]];
    simpl; intros H; (reflexivity || discriminate).
Qed.




(** With a limit of 2, a third, older turn changes nothing. *)
Lemma older_history_ignored_witness :
  generateReply asciiLower env_configured (provider_answers "Hello") sample_input world0
  = generateReply asciiLower env_configured (provider_answers "Hello")
      {| history := drop 1 (history sample_input) |} world0.
Proof.
  apply (older_history_ignored asciiLower env_configured (provider_answers "Hello")
           (take 1 (history sample_input)) (drop 1 (history sample_input)) world0).
  vm_compute. lia.
Defined.

(** The sample send creates the conversation it returns. *)
Lemma send_resolves_session_witness :
  exists c,
    conversations (db sample_send.2) = [c] /\
    conv_id c = js "id-0000" /\
    conv_channel c = js "web" /\
    conv_title c = Some (js "Web session").
Proof.
  destruct (send_resolves_session asciiLower env_configured
              (provider_answers " Hello! ") sample_newId sample_now sortByCreatedAt
              sample_send_input world0 sample_sent sample_send.2 sample_send_returns)
    as [Hnew _].
  destruct (Hnew (or_introl eq_refl)) as (c & Hc & Hid & Hch & Ht & _).
  exists c. repeat split; assumption.
Defined.

(** The sample send stores the trimmed text and the reply. *)
Lemma send_appends_exchange_witness :
  exists inb outb,
    messages (db sample_send.2) = [inb; outb] /\
    msg_content inb = js "Hi" /\
    msg_content outb = js "Hello!".
Proof.
  destruct (send_appends_exchange asciiLower env_configured
              (provider_answers " Hello! ") sample_newId sample_now sortByCreatedAt
              sample_send_input world0 sample_sent sample_send.2 sample_send_returns)
    as (inb & outb & Hm & _ & _ & Hin & _ & _ & _ & Hout & _).
  exists inb, outb. repeat split; assumption.
Defined.

(** The metadata the sample send stores. *)
Lemma send_stores_safe_metadata_witness :
  exists older outb fallback extra,
    messages (db sample_send.2) = older ++ [outb] /\
    msg_metadata outb =
      Some (VObject [("llm",
        VObject ([("provider", VString (js "openai"));
                  ("model", VString (js "gpt-4o-mini"));
                  ("usedFallback", VBool fallback)] ++ extra))]).
Proof.
  destruct (send_stores_safe_metadata asciiLower env_configured
              (provider_answers " Hello! ") sample_newId sample_now sortByCreatedAt
              sample_send_input world0 sample_sent sample_send.2 sample_send_returns)
    as (older & outb & fallback & extra & Hm & Hmeta & _).
  exists older, outb, fallback, extra. split; assumption.
Defined.

(** A session identifier of spaces is no session identifier. *)
Lemma send_sees_trimmed_input_witness :
  sendChatMessage asciiLower env_configured (provider_answers " Hello! ")
    sample_newId sample_now sortByCreatedAt
    {| message := js " Hi "; sessionId := Some (js "  ") |} world0
  = sample_send.
Proof.
  destruct (send_sees_trimmed_input asciiLower env_configured
              (provider_answers " Hello! ") sample_newId sample_now sortByCreatedAt
              {| message := js " Hi "; sessionId := Some (js "  ") |} world0)
    as [_ Hblank].
  exact (Hblank (js "  ") eq_refl eq_refl).
Defined.

(** The call of the sample send shows the provider the one stored message. *)
Lemma provider_sees_only_the_conversation_witness :
  calls sample_send.2 = calls world0 \/
  exists call,
    calls sample_send.2 = calls world0 ++ [call] /\
    forall turn, turn ∈ drop 2 (req_messages (call_params call)) ->
      exists m, m ∈ messages (db sample_send.2) /\
                msg_conversationId m = js "id-0000" /\
                role turn = toLlmRole (msg_direction m) /\
                content turn = msg_content m.
Proof.
  exact (provider_sees_only_the_conversation asciiLower env_configured
           (provider_answers " Hello! ") sample_newId sample_now sortByCreatedAt
           sortByCreatedAt_Permutation
           sample_send_input world0 sample_sent sample_send.2 sample_send_returns).
Defined.

(** Reading the session of the sample send gives its reply. *)
Lemma sent_then_read_witness :
  exists ms reply,
    getChatSession sortByCreatedAt (js "id-0000") sample_send.2 =
    (Returned {| session_reply := reply;
                 session_sessionId := js "id-0000";
                 session_messages := map toDto ms |}, sample_send.2) /\
    reply = js "Hello!".
Proof.
  destruct (sent_then_read asciiLower env_configured
              (provider_answers " Hello! ") sample_newId sample_now sortByCreatedAt
              sortByCreatedAt_Permutation sortByCreatedAt_Sorted
              sample_send_input world0 sample_sent sample_send.2 sample_send_returns)
    as (ms & reply & Hread & _ & Hreply).
  exists ms, reply. split; [exact Hread |]. apply Hreply.
  intros older last Hm m Hin.
  set (l := messages (db sample_send.2)) in Hm. vm_compute in l. subst l.
  match type of Hm with
  | [?x; ?y] = _ => destruct (app_inj_tail [x] older y last Hm) as [<- <-]
  end.
  apply list_elem_of_singleton in Hin. subst m. vm_compute. reflexivity.
Defined.



(** A first message sent while the API key is blank: the fallback reply, and
    no call to the provider. *)
Lemma send_without_key_witness :
  let run := sendChatMessage asciiLower env_unconfigured (provider_answers " Hello! ")
               sample_newId sample_now sortByCreatedAt sample_send_input world0 in
  exists r, run.1 = Returned r /\
            send_reply r = fallbackReply /\ calls run.2 = calls world0.
Proof.
  intros run.
  set (r := {| send_reply := fallbackReply; send_sessionId := js "id-0000" |}).
  assert (Hrun : run = (Returned r, run.2)) by (vm_compute; reflexivity).
  exists r. split; [exact (f_equal fst Hrun) |].
  apply (send_without_key asciiLower env_unconfigured (provider_answers " Hello! ")
           sample_newId sample_now sortByCreatedAt sample_send_input world0 r run.2).
  - right. exists (js "   "). split; reflexivity.
  - exact Hrun.
Defined.

(** The sample exchange: the provider's answer, trimmed, after one call. *)
Lemma send_returns_provider_answer_witness :
  send_reply sample_sent = js "Hello!" /\
  exists call, calls sample_send.2 = calls world0 ++ [call].
Proof.
  apply (send_returns_provider_answer asciiLower env_configured
           (provider_answers " Hello! ") sample_newId sample_now sortByCreatedAt
           sample_send_input world0 sample_sent sample_send.2
           (js " sk-test ")
           {| choices :=
                [{| choice_message :=
                      Some {| completion_content := Some (js " Hello! ") |} |}] |}
           (js " Hello! ")).
  - reflexivity.
  - vm_compute. discriminate.
  - intros call. reflexivity.
  - reflexivity.
  - vm_compute. discriminate.
  - exact sample_send_returns.
Defined.

(** The history limit written as 007 is seven. *)
Lemma decimal_setting_witness :
  clampInt (Some (js "007")) 1 100 20 = 7.
Proof.
  apply (decimal_setting 3 7 1 100 20); [lia | simpl; lia | simpl; lia].
Defined.

(** The history of the sample session, as the backend answered it. *)
Lemma history_proxy_relays_witness :
  exists response,
    (GET None sample_parse sample_encode sample_history_upstream (js "id-0000")).1 =
      Returned response /\
    proxy_status response = 200 /\
    proxy_data response =
      Some (JObject [("reply", JString (js "Hello!"));
                     ("sessionId", JString (js "id-0000"))]).
Proof.
  destruct (history_proxy_relays None sample_parse sample_encode
              sample_history_upstream (js "id-0000") (js "id-0000")
              {| up_status := 200; up_text := Returned (js "{}") |} (js "{}"))
    as (response & Hget & Hstatus & _ & Hdata & _).
  - vm_compute. discriminate.
  - reflexivity.
  - reflexivity.
  - reflexivity.
  - simpl. lia.
  - simpl. lia.
  - exists response. split; [exact Hget |]. split; [exact Hstatus |].
    apply Hdata; [vm_compute; discriminate | reflexivity].
Defined.

(** A message, and the reply as the backend answered it. *)
Lemma proxy_relays_witness :
  exists response,
    (POST None sample_stringify sample_parse sample_upstream
       (Returned (JObject [("message", JString (js "Hi"))]))).1 =
      Returned response /\
    proxy_status response = 200 /\
    proxy_data response =
      Some (JObject [("reply", JString (js "Hello!"));
                     ("sessionId", JString (js "id-0000"))]).
Proof.
  destruct (proxy_relays None sample_stringify sample_parse sample_upstream
              (JObject [("message", JString (js "Hi"))]) (js "Hi")
              {| up_status := 200; up_text := Returned (js "{}") |} (js "{}"))
    as (response & Hpost & Hstatus & _ & Hdata & _).
  - reflexivity.
  - vm_compute. discriminate.
  - reflexivity.
  - reflexivity.
  - simpl. lia.
  - simpl. lia.
  - exists response. split; [exact Hpost |]. split; [exact Hstatus |].
    apply Hdata; [vm_compute; discriminate | reflexivity].
Defined.
